(** * middleware_logging: the client repository, its validation pipeline and
      its routes, embedded from the TypeScript source.

    The development follows the most complete revision of the server (the
    one with [UserRepository], the zod schemas, [AppError] and the global
    [errorMiddleware]).

    Conventions of the embedding.
    - A JavaScript [number] is a [number]: an integer-valued double or one
      of the two infinities (a JSON text such as [1e999] parses to
      [Infinity]); [x + 1] is the addition of doubles, which is exact up to
      2^53 and rounds beyond.  [-0] is [===] to [0] and is written as [0]:
      it is not told apart from [0].  Numbers with a fractional part are
      not represented.  A route parameter that [Number]/[parseInt] turns
      into [NaN] or into a number with a fractional part is [None]: it is
      [===] to no stored id.
    - A JavaScript string is a [string]; one character stands for one UTF-16
      code unit, which is what [.length] counts.  Literals with accents are
      written as they are in the source; their length is never inspected.
    - Records follow the declared interfaces: [IClient],
      [Omit<IClient, "id">] and [Partial<IClient>].  An optional property is
      an [option]; [None] is an absent property.  Properties outside the
      interfaces are not represented, nor is an [id] that is not a number,
      nor the order of the properties of a record ([toJSON] lists them in
      the order of the interface).  No schema looks at such properties or
      at [id], and the handlers pass the body on as it came: what the
      embedding says of the record a request stores or answers with is
      said of bodies that hold properties of [IClient] only
      ([client_keys]) with an [id] that is absent or a number
      ([finite_id] where the file is concerned).
    - [users.json] is seen through [JSON.parse]: its content is the value
      its text denotes.  [JSON.stringify] followed by [JSON.parse] is the
      identity on strings and on finite numbers, and turns an infinite
      number into [null] ([written]); the text itself is not represented.
    - [fs.writeFile] and [fs.readFile] of an existing file succeed. *)

From Stdlib Require Import ZArith String Lia.
From stdpp Require Import base strings numbers option list sorting.

Set Warnings "-register-all".
Local Open Scope string_scope.
Local Open Scope Z_scope.
Local Open Scope list_scope.

(** ** Numbers *)

Inductive number :=
| Int (n : Z)
| PosInf
| NegInf.

Coercion Int : Z >-> number.

#[global] Instance number_eq_dec : EqDecision number.
Proof. solve_decision. Defined.

(** 2^53: up to it every integer is a double. *)
Definition two53 : Z := 9007199254740992.

(** [x + 1] on doubles, round to nearest, ties to even.  From -2^53 to
    2^53 - 1 the sum is exact.  Beyond, up to 2^54 in magnitude, the
    doubles are the even integers, [x + 1] lies half way between [x] and
    [x + 2], and the one with the even significand is taken.  Further out
    the doubles are 4 or more apart and the sum is [x] again. *)
Definition add_one (x : number) : number :=
  match x with
  | Int n =>
      if (- two53 <=? n) && (n <? two53) then Int (n + 1)
      else if (- 2 * two53 <? n) && (n <? 2 * two53)
           then (if Z.even (n / 2) then Int n else Int (n + 2))
           else Int n
  | PosInf => PosInf
  | NegInf => NegInf
  end.

(** [isFinite(x)]. *)
Definition finite (x : number) : Prop :=
  match x with
  | Int _ => True
  | PosInf | NegInf => False
  end.

(** The numbers to which one is added exactly. *)
Definition safe (x : number) : Prop :=
  match x with
  | Int n => - two53 <= n < two53
  | PosInf | NegInf => False
  end.

(** [x < y]. *)
Definition num_lt (x y : number) : Prop :=
  match x, y with
  | Int a, Int b => a < b
  | NegInf, Int _ | NegInf, PosInf | Int _, PosInf => True
  | _, _ => False
  end.

(** [x <= y]. *)
Definition num_le (x y : number) : Prop := x = y \/ num_lt x y.

(** [Math.max(x, y)]. *)
Definition num_max (x y : number) : number :=
  match x, y with
  | Int a, Int b => Int (Z.max a b)
  | PosInf, _ | _, PosInf => PosInf
  | NegInf, z | z, NegInf => z
  end.

(** ** JSON values *)

Inductive json :=
| JNull
| JBool (b : bool)
| JNum (n : number)
| JStr (s : string)
| JArr (xs : list json)
| JObj (props : list (string * json)).

(** [lookup_prop k ps]: the value of the own property [k] in a property
    list (first binding; an object has one binding per key). *)
Fixpoint lookup_prop (k : string) (ps : list (string * json)) : option json :=
  match ps with
  | [] => None
  | (k', v) :: ps' => if String.eqb k k' then Some v else lookup_prop k ps'
  end.

(** [prop k v] is the JavaScript [v[k]] on a parsed JSON value; [None] is
    [undefined]. *)
Definition prop (k : string) (v : json) : option json :=
  match v with
  | JObj ps => lookup_prop k ps
  | _ => None
  end.

(** ** Data model: [IPerson], [IAddress], [IClient] *)

Record IClient := {
  id : number;
  email : string;
  name : string;
  cpf : string;
  rg : option string;
  cep : string;
  street : option string;
  neighborhood : option string;
  city : option string;
  state : option string
}.

(** [Omit<IClient, "id">], the argument of [create]. *)
Module Omit.
Record t := {
  email : string;
  name : string;
  cpf : string;
  rg : option string;
  cep : string;
  street : option string;
  neighborhood : option string;
  city : option string;
  state : option string
}.
End Omit.

(** [Partial<IClient>], the argument of [update]: every property of
    [IClient], [id] included, may be supplied or not. *)
Module Partial.
Record t := {
  id : option number;
  email : option string;
  name : option string;
  cpf : option string;
  rg : option string;
  cep : option string;
  street : option string;
  neighborhood : option string;
  city : option string;
  state : option string
}.

(** The payload [{}]. *)
Definition empty : t :=
  {| id := None; email := None; name := None; cpf := None; rg := None;
     cep := None; street := None; neighborhood := None; city := None;
     state := None |}.
End Partial.

(** The properties of a client record, in the order of the seed literals. *)
Inductive field :=
| f_id | f_email | f_name | f_cpf | f_rg | f_cep
| f_street | f_neighborhood | f_city | f_state.

Definition fields : list field :=
  [f_id; f_email; f_name; f_cpf; f_rg; f_cep;
   f_street; f_neighborhood; f_city; f_state].

Definition key (f : field) : string :=
  match f with
  | f_id => "id" | f_email => "email" | f_name => "name" | f_cpf => "cpf"
  | f_rg => "rg" | f_cep => "cep" | f_street => "street"
  | f_neighborhood => "neighborhood" | f_city => "city" | f_state => "state"
  end.

(** [get f u] is [u[f]]: [None] when the property is absent. *)
Definition get (f : field) (u : IClient) : option json :=
  match f with
  | f_id => Some (JNum (id u))
  | f_email => Some (JStr (email u))
  | f_name => Some (JStr (name u))
  | f_cpf => Some (JStr (cpf u))
  | f_rg => JStr <$> rg u
  | f_cep => Some (JStr (cep u))
  | f_street => JStr <$> street u
  | f_neighborhood => JStr <$> neighborhood u
  | f_city => JStr <$> city u
  | f_state => JStr <$> state u
  end.

(** [supplied f d] is [d[f]] for a partial payload. *)
Definition supplied (f : field) (d : Partial.t) : option json :=
  match f with
  | f_id => JNum <$> Partial.id d
  | f_email => JStr <$> Partial.email d
  | f_name => JStr <$> Partial.name d
  | f_cpf => JStr <$> Partial.cpf d
  | f_rg => JStr <$> Partial.rg d
  | f_cep => JStr <$> Partial.cep d
  | f_street => JStr <$> Partial.street d
  | f_neighborhood => JStr <$> Partial.neighborhood d
  | f_city => JStr <$> Partial.city d
  | f_state => JStr <$> Partial.state d
  end.

(** What [JSON.stringify] writes for the value of a property, read back:
    an infinite number is written as [null]. *)
Definition written (v : json) : json :=
  match v with
  | JNum (Int n) => JNum (Int n)
  | JNum _ => JNull
  | _ => v
  end.

(** The JSON object of a record ([res.json(user)], [JSON.stringify]): its
    present properties, as they are written. *)
Definition toJSON (u : IClient) : json :=
  JObj (omap (fun f => pair (key f) <$> (written <$> get f u)) fields).

(** ** Typed views of parsed JSON: the casts [as IClient[]] and the request
    body types *)

Definition str_prop (k : string) (v : json) : option string :=
  match prop k v with
  | Some (JStr s) => Some s
  | _ => None
  end.

Definition num_prop (k : string) (v : json) : option number :=
  match prop k v with
  | Some (JNum n) => Some n
  | _ => None
  end.

(** An optional string property: absent, a string, or ill-typed (outer
    [None]). *)
Definition opt_str_prop (k : string) (v : json) : option (option string) :=
  match prop k v with
  | None => Some None
  | Some (JStr s) => Some (Some s)
  | Some _ => None
  end.

(** [asIClient v]: the JSON object [v] read at type [IClient]; [None] when
    [v] does not have that type. *)
Definition asIClient (v : json) : option IClient :=
  i ← num_prop "id" v;
  e ← str_prop "email" v;
  n ← str_prop "name" v;
  c ← str_prop "cpf" v;
  r ← opt_str_prop "rg" v;
  z ← str_prop "cep" v;
  s ← opt_str_prop "street" v;
  b ← opt_str_prop "neighborhood" v;
  t ← opt_str_prop "city" v;
  a ← opt_str_prop "state" v;
  Some {| id := i; email := e; name := n; cpf := c; rg := r; cep := z;
          street := s; neighborhood := b; city := t; state := a |}.

(** [JSON.parse(data) as IClient[]]. *)
Definition asIClients (v : json) : option (list IClient) :=
  match v with
  | JArr xs => mapM asIClient xs
  | _ => None
  end.

(** The request body read at type [Omit<IClient, "id">]: the properties of
    the interface it has ([create] replaces its [id], if it has one).  A
    body with other properties is outside the typed model: see
    [client_keys]. *)
Definition asOmit (v : json) : option Omit.t :=
  e ← str_prop "email" v;
  n ← str_prop "name" v;
  c ← str_prop "cpf" v;
  r ← opt_str_prop "rg" v;
  z ← str_prop "cep" v;
  s ← opt_str_prop "street" v;
  b ← opt_str_prop "neighborhood" v;
  t ← opt_str_prop "city" v;
  a ← opt_str_prop "state" v;
  Some {| Omit.email := e; Omit.name := n; Omit.cpf := c; Omit.rg := r;
          Omit.cep := z; Omit.street := s; Omit.neighborhood := b;
          Omit.city := t; Omit.state := a |}.

(** The request body read at type [Partial<IClient>]: the properties of
    the interface it supplies.  A body with other properties, or with an
    [id] that is not a number, is outside the typed model: see
    [client_keys] and [finite_id].  (The schema lets no other property of
    the interface through with a value of another type than declared.) *)
Definition asPartial (v : json) : Partial.t :=
  {| Partial.id := num_prop "id" v;
     Partial.email := str_prop "email" v;
     Partial.name := str_prop "name" v;
     Partial.cpf := str_prop "cpf" v;
     Partial.rg := str_prop "rg" v;
     Partial.cep := str_prop "cep" v;
     Partial.street := str_prop "street" v;
     Partial.neighborhood := str_prop "neighborhood" v;
     Partial.city := str_prop "city" v;
     Partial.state := str_prop "state" v |}.

(** ** UserRepository *)

(** The repository object together with the file it writes.
    - [users]: the private array [this.users];
    - [file]: the content of [users.json] as a JSON value, [None] when the
      file is missing or is not JSON;
    - [writes]: how many times [fs.writeFile] has run (a counter that only
      observes the persistence effect). *)
Record UserRepository := {
  users : list IClient;
  file : option json;
  writes : nat
}.

(** [saveToFile]: [fs.writeFile(filePath, JSON.stringify(this.users, null, 2))]. *)
Definition saveToFile (r : UserRepository) : UserRepository :=
  {| users := users r;
     file := Some (JArr (toJSON <$> users r));
     writes := S (writes r) |}.

Definition set_users (us : list IClient) (r : UserRepository) : UserRepository :=
  {| users := us; file := file r; writes := writes r |}.

(** The seed of [init]; the three [fake()] tax ids are arguments. *)
Definition seed (c1 c2 c3 : string) : list IClient :=
  [ {| id := 1; email := "felipe@example.com"; name := "Felipe"; cpf := c1;
       rg := Some "111111111"; cep := "11111111"; street := Some "Rua um";
       neighborhood := Some "Bairro um"; city := Some "Cidade um";
       state := Some "Estado um" |};
    {| id := 2; email := "maria@example.com"; name := "Maria"; cpf := c2;
       rg := Some "222222222"; cep := "22222222"; street := Some "Rua dois";
       neighborhood := Some "Bairro dois"; city := Some "Cidade dois";
       state := Some "Estado dois" |};
    {| id := 3; email := "andre@example.com"; name := "André"; cpf := c3;
       rg := Some "333333333"; cep := "33333333"; street := Some "Rua três";
       neighborhood := Some "Bairro três"; city := Some "Cidade três";
       state := Some "Estado três" |} ].

(** [init]: load the file, or fall back to the seed and write it.  The
    result is [None] when the file holds JSON that is not an [IClient[]]:
    the cast is unchecked in the source and such a collection is outside
    the typed model. *)
Definition init (c1 c2 c3 : string) (r : UserRepository) : option UserRepository :=
  match file r with
  | Some data => us ← asIClients data; Some (set_users us r)
  | None => Some (saveToFile (set_users (seed c1 c2 c3) r))
  end.

Definition getAll (r : UserRepository) : list IClient := users r.

(** [this.users.findIndex(u => u.id === id)] together with the element at
    that index. *)
Definition findIndex (i : number) (us : list IClient) : option (nat * IClient) :=
  list_find (fun u => id u = i) us.

(** [this.users.find(u => u.id === id)]. *)
Definition getById (i : number) (r : UserRepository) : option IClient :=
  snd <$> findIndex i (users r).

(** [(this.users.slice(-1)[0]?.id) ?? 0]. *)
Definition last_id (us : list IClient) : number :=
  from_option id 0 (last us).

Definition create (user : Omit.t) (r : UserRepository) : IClient * UserRepository :=
  let newUser :=
    {| id := add_one (last_id (users r));
       email := Omit.email user; name := Omit.name user; cpf := Omit.cpf user;
       rg := Omit.rg user; cep := Omit.cep user; street := Omit.street user;
       neighborhood := Omit.neighborhood user; city := Omit.city user;
       state := Omit.state user |} in
  (newUser, saveToFile (set_users (users r ++ [newUser]) r)).

(** [{ ...u, ...data }]: a property of [data] replaces the one of [u]. *)
Definition merge (u : IClient) (data : Partial.t) : IClient :=
  {| id := default (id u) (Partial.id data);
     email := default (email u) (Partial.email data);
     name := default (name u) (Partial.name data);
     cpf := default (cpf u) (Partial.cpf data);
     rg := from_option Some (rg u) (Partial.rg data);
     cep := default (cep u) (Partial.cep data);
     street := from_option Some (street u) (Partial.street data);
     neighborhood := from_option Some (neighborhood u) (Partial.neighborhood data);
     city := from_option Some (city u) (Partial.city data);
     state := from_option Some (state u) (Partial.state data) |}.

Definition update (i : number) (data : Partial.t) (r : UserRepository)
  : option IClient * UserRepository :=
  match findIndex i (users r) with
  | None => (None, r)
  | Some (index, u) =>
      let r' := saveToFile (set_users (<[index := merge u data]> (users r)) r) in
      (users r' !! index, r')
  end.

(** [delete]; [splice(index, 1)[0]] is the element at [index]. *)
Definition delete (i : number) (r : UserRepository) : option IClient * UserRepository :=
  match findIndex i (users r) with
  | None => (None, r)
  | Some (index, _) =>
      let deletedUser := users r !! index in
      let r' := saveToFile (set_users (base.delete index (users r)) r) in
      (deletedUser, r')
  end.

(** ** External libraries

    The functions the server imports: [isCPF] of validation-br, the e-mail
    pattern behind zod's [.email()], and the default export of cep-promise
    (called [cep] in the source, [cep_promise] here because [cep] is also a
    property of [IClient]). *)

Inductive CepResult :=
| Resolved (addressData : json)     (* the promise resolves to an address *)
| Rejected (message : string).      (* it rejects with a CepPromiseError *)

Class Libs := {
  isCPF : string -> bool;
  isEmail : string -> bool;
  cep_promise : string -> CepResult
}.

(** ** Zod schemas *)

(** The checks chained on [z.string()], each with its message. *)
Inductive check :=
| Min (n : nat) (message : string)
| Length (n : nat) (message : string)
| Email (message : string)
| Refine (p : string -> bool) (message : string).

Record ZodString := {
  checks : list check;
  isOptional : bool            (* [.optional()] *)
}.

(** [z.object({...})]: the shape, key by key. *)
Definition ZodObject := list (string * ZodString).

(** The message of an issue: the one given with the check, or zod's own
    for a value of the wrong type (also a missing required property). *)
Inductive zmessage :=
| InvalidType
| Message (m : string).

Record ZodIssue := {
  path : list string;
  message : zmessage
}.

Definition check_message (c : check) : string :=
  match c with
  | Min _ m | Length _ m | Email m | Refine _ m => m
  end.

Definition check_ok `{Libs} (c : check) (s : string) : bool :=
  match c with
  | Min n _ => (n <=? String.length s)%nat
  | Length n _ => (String.length s =? n)%nat
  | Email _ => isEmail s
  | Refine p _ => p s
  end.

(** One property against its schema; [v] is [body[k]]. *)
Definition parse_property `{Libs} (k : string) (zs : ZodString) (v : option json)
  : list ZodIssue :=
  match v with
  | None =>
      if isOptional zs then [] else [ {| path := [k]; message := InvalidType |} ]
  | Some (JStr s) =>
      (fun c => {| path := [k]; message := Message (check_message c) |})
        <$> filter (fun c => check_ok c s = false) (checks zs)
  | Some _ => [ {| path := [k]; message := InvalidType |} ]
  end.

(** The issues [schema.parse(body)] raises as a [ZodError]; the empty list
    is a successful parse.  Properties outside the shape are ignored. *)
Definition issues `{Libs} (schema : ZodObject) (body : json) : list ZodIssue :=
  match body with
  | JObj _ => flat_map (fun '(k, zs) => parse_property k zs (prop k body)) schema
  | _ => [ {| path := []; message := InvalidType |} ]
  end.

(** [error.flatten().fieldErrors[k]]. *)
Definition fieldErrors (error : list ZodIssue) (k : string) : list zmessage :=
  message <$> filter (fun i => path i = [k]) error.

Definition required (cs : list check) : ZodString :=
  {| checks := cs; isOptional := false |}.

Definition optional (zs : ZodString) : ZodString :=
  {| checks := checks zs; isOptional := true |}.

(** [schema.partial()]. *)
Definition partial (schema : ZodObject) : ZodObject :=
  (fun '(k, zs) => (k, optional zs)) <$> schema.

Definition createUserSchema `{Libs} : ZodObject :=
  [ ("name", required [Min 3 "Nome deve ter ao menos 3 letras"]);
    ("email", required [Email "Formato de email inválido"]);
    ("cpf", required [Refine isCPF "CPF inválido"]);
    ("cep", required [Length 8 "CEP deve conter 8 dígitos"]);
    ("rg", optional (required []));
    ("street", optional (required []));
    ("neighborhood", optional (required []));
    ("city", optional (required []));
    ("state", optional (required [])) ].

Definition updateUserSchema `{Libs} : ZodObject := partial createUserSchema.

(** ** Errors, responses and handlers *)

(** What a handler throws: an [AppError], or any other [Error]. *)
Inductive exn :=
| AppError (message : string) (statusCode : Z)
| Error (message : string).

Record Response := {
  status : Z;
  body : json
}.

Inductive outcome (A : Type) :=
| Returned (a : A)
| Thrown (e : exn).
Arguments Returned {A} a.
Arguments Thrown {A} e.

(** A handler runs on the repository and either returns or throws. *)
Definition Handler (A : Type) : Type :=
  UserRepository -> outcome A * UserRepository.

Definition ret {A} (a : A) : Handler A := fun r => (Returned a, r).

Definition throw {A} (e : exn) : Handler A := fun r => (Thrown e, r).

Definition bind {A B} (m : Handler A) (k : A -> Handler B) : Handler B :=
  fun r =>
    match m r with
    | (Returned a, r') => k a r'
    | (Thrown e, r') => (Thrown e, r')
    end.

Notation "'let*' x ':=' m 'in' k" := (bind m (fun x => k))
  (at level 10, x binder, m at level 200, k at level 200).

(** A repository method that changes the repository. *)
Definition call {A} (op : UserRepository -> A * UserRepository) : Handler A :=
  fun r => let (a, r') := op r in (Returned a, r').

(** A repository method that only reads. *)
Definition read {A} (q : UserRepository -> A) : Handler A :=
  fun r => (Returned (q r), r).

(** A repository method at the number a route parameter parses to. *)
Definition at_param {A} (p : option number)
    (q : number -> UserRepository -> option A)
  : UserRepository -> option A :=
  fun r => match p with Some i => q i r | None => None end.

Definition at_param_call {A} (p : option number)
    (op : number -> UserRepository -> option A * UserRepository)
  : UserRepository -> option A * UserRepository :=
  fun r => match p with Some i => op i r | None => (None, r) end.

(** [errorMiddleware]. *)
Definition errorMiddleware (err : exn) : Response :=
  match err with
  | AppError m code =>
      {| status := code;
         body := JObj [("status", JStr "error"); ("message", JStr m)] |}
  | Error _ =>
      {| status := 500;
         body := JObj [("status", JStr "error");
                       ("message", JStr "Internal Server Error")] |}
  end.

(** A route: its handler, with whatever it passes to [next] answered by
    [errorMiddleware]. *)
Definition serve (h : Handler Response) (r : UserRepository)
  : Response * UserRepository :=
  match h r with
  | (Returned res, r') => (res, r')
  | (Thrown e, r') => (errorMiddleware e, r')
  end.

(** [validateBody(schema)]: [next()] or [next(new AppError(...))].  The
    only error [schema.parse] raises is the [ZodError] of a body with
    issues, so the branch for other errors is not taken. *)
Definition validateBody `{Libs} (schema : ZodObject) (body : json) : Handler unit :=
  match issues schema body with
  | [] => ret tt
  | _ :: _ => throw (AppError "Invalid request data" 400)
  end.

Definition notFound : exn := AppError "Usuário não encontrado" 404.

(** ** Routes *)

Definition get_users_isCPF `{Libs} (p : option number) : Handler Response :=
  let* user := read (at_param p getById) in
  match user with
  | None => throw notFound
  | Some u =>
      ret {| status := 200;
             body := JObj [("message",
                            JStr (if isCPF (cpf u) then "cpf válido"
                                  else "cpf inválido"))] |}
  end.

Definition get_users_isCEP `{Libs} (p : option number) : Handler Response :=
  let* user := read (at_param p getById) in
  match user with
  | None => throw notFound
  | Some u =>
      match cep_promise (cep u) with
      | Resolved addressData =>
          ret {| status := 200;
                 body := JObj [("message", JStr "User's CEP is valid.");
                               ("cep", JStr (cep u));
                               ("address", addressData)] |}
      | Rejected m => throw (Error m)
      end
  end.

Definition get_users : Handler Response :=
  let* us := read getAll in
  ret {| status := 200; body := JArr (toJSON <$> us) |}.

Definition get_users_id (p : option number) : Handler Response :=
  let* user := read (at_param p getById) in
  match user with
  | None => throw notFound
  | Some u => ret {| status := 200; body := toJSON u |}
  end.

(** The branch for a body that is not an [Omit<IClient, "id">] is never
    taken: [validateBody(createUserSchema)] has passed (lemma
    [issues_create_asOmit]). *)
Definition post_users `{Libs} (reqBody : json) : Handler Response :=
  let* _ := validateBody createUserSchema reqBody in
  match asOmit reqBody with
  | Some user =>
      let* newUser := call (create user) in
      ret {| status := 201; body := toJSON newUser |}
  | None => throw (Error "body is not a client")
  end.

Definition put_users_id `{Libs} (p : option number) (reqBody : json) : Handler Response :=
  let* _ := validateBody updateUserSchema reqBody in
  let* updated := call (at_param_call p (fun i => update i (asPartial reqBody))) in
  match updated with
  | None => throw notFound
  | Some u => ret {| status := 200; body := toJSON u |}
  end.

Definition delete_users_id (p : option number) : Handler Response :=
  let* deleted := call (at_param_call p delete) in
  match deleted with
  | None => throw notFound
  | Some u => ret {| status := 200; body := toJSON u |}
  end.

(** ** Notions used to state the properties *)

Definition ids (us : list IClient) : list number := id <$> us.

(** The largest id of a collection; [None] for the empty collection. *)
Definition max_id (us : list IClient) : option number :=
  foldr (fun u m => Some (from_option (num_max (id u)) (id u) m)) None us.

(** The id the specification gives a new record: one more than the largest
    id, or 1 in an empty collection. *)
Definition spec_next_id (us : list IClient) : number :=
  from_option add_one 1 (max_id us).

(** The ids grow along the collection. *)
Definition ascending (us : list IClient) : Prop :=
  StronglySorted num_lt (ids us).

(** Decides [NoDup] on a concrete list of ids. *)
Ltac distinct :=
  repeat (constructor;
          [rewrite ?elem_of_cons, ?elem_of_nil; intuition congruence|]);
  constructor.

(** Finds in a concrete list of ids one that occurs again later. *)
Ltac repeated :=
  let Hn := fresh in
  intros [Hn _]%NoDup_cons; apply Hn; rewrite !elem_of_cons; auto.

(** The mutating operations of the repository, and runs of them. *)
Inductive operation :=
| Create (user : Omit.t)
| Update (i : number) (data : Partial.t)
| Delete (i : number).

Definition step (r : UserRepository) (o : operation) : UserRepository :=
  match o with
  | Create user => (create user r).2
  | Update i data => (update i data r).2
  | Delete i => (delete i r).2
  end.

Definition run (os : list operation) (r : UserRepository) : UserRepository :=
  foldl step r os.

(** A restart: a new [UserRepository] object, with an empty [users], next
    to the file the previous process left. *)
Definition restart (r : UserRepository) : UserRepository :=
  {| users := []; file := file r; writes := writes r |}.

(** The file holds the collection: loading it gives [users] back. *)
Definition persisted (r : UserRepository) : Prop :=
  file r ≫= asIClients = Some (users r).

(** ** Sample data

    Stand-ins for the three libraries and a few values, to run the model on
    concrete inputs.  The theorems hold for every [Libs]. *)
Module Sample.

Definition libs : Libs :=
  {| isCPF := fun s => String.eqb s "52998224725";
     isEmail := fun s => String.eqb s "ana@example.com";
     cep_promise := fun s =>
       if String.eqb s "01001000"
       then Resolved (JObj [("cep", JStr "01001000"); ("state", JStr "SP");
                            ("city", JStr "São Paulo")])
       else Rejected "Todos os serviços de CEP retornaram erro." |}.

Definition client (i : number) (n : string) : IClient :=
  {| id := i; email := "ana@example.com"; name := n; cpf := "52998224725";
     rg := None; cep := "01001000"; street := None; neighborhood := None;
     city := None; state := None |}.

Definition ana : Omit.t :=
  {| Omit.email := "ana@example.com"; Omit.name := "Ana Silva";
     Omit.cpf := "52998224725"; Omit.rg := None; Omit.cep := "01001000";
     Omit.street := None; Omit.neighborhood := None; Omit.city := None;
     Omit.state := None |}.

Definition repo_of (us : list IClient) : UserRepository :=
  saveToFile {| users := us; file := None; writes := 0 |}.

(** The repository after a first start without a file. *)
Definition seeded : UserRepository :=
  repo_of (seed "52998224725" "52998224725" "52998224725").

(** The payload of the schema example, with the property names of the
    source ([cpf] is the tax id, [cep] the postal code). *)
Definition invalid_payload : json :=
  JObj [("name", JStr "Al"); ("email", JStr "bad");
        ("cpf", JStr "000"); ("cep", JStr "123")].

(** A payload that is valid but for its postal code, which has 8
    characters and no digit. *)
Definition letters_payload : json :=
  JObj [("name", JStr "Ana Silva"); ("email", JStr "ana@example.com");
        ("cpf", JStr "52998224725"); ("cep", JStr "abcdefgh")].

Definition rename (n : string) : Partial.t :=
  {| Partial.id := None; Partial.email := None; Partial.name := Some n;
     Partial.cpf := None; Partial.rg := None; Partial.cep := None;
     Partial.street := None; Partial.neighborhood := None;
     Partial.city := None; Partial.state := None |}.

Definition renumber (i : number) : Partial.t :=
  {| Partial.id := Some i; Partial.email := None; Partial.name := None;
     Partial.cpf := None; Partial.rg := None; Partial.cep := None;
     Partial.street := None; Partial.neighborhood := None;
     Partial.city := None; Partial.state := None |}.

(** The seeded repository after record 3 was given the id 0: the ids are
    1, 2, 0, distinct and not growing. *)
Definition renumbered : UserRepository :=
  run [Update 3 (renumber 0)] seeded.

(** A repository whose collection has the ids 5 and 2, as [init] loads it
    from a file written by hand. *)
Definition unordered : UserRepository :=
  repo_of [client 5 "Eva"; client 2 "Ivo"].

(** Eva and Ivo under the ids 1 and 2, after Eva was given the id 2: two
    records with the id 2, Eva first. *)
Definition doubled : UserRepository :=
  run [Update 1 (renumber 2)] (repo_of [client 1 "Eva"; client 2 "Ivo"]).

(** The seeded repository after record 1 was given the id [Infinity], as
    PUT /users/1 with the body [{"id": 1e999}] does. *)
Definition unbounded : UserRepository :=
  run [Update 1 (renumber PosInf)] seeded.

(** A repository whose last id is 2^53. *)
Definition at_limit : UserRepository :=
  repo_of [client 1 "Eva"; client two53 "Ivo"].

End Sample.

(** What [errorMiddleware] answers to the [AppError] of [validateBody] and
    to an error that is not an [AppError]. *)
Definition invalid_request : Response :=
  errorMiddleware (AppError "Invalid request data" 400).

Definition internal_error : Response :=
  errorMiddleware (Error "").

(** What [errorMiddleware] answers to the [AppError] of a missing record. *)
Definition not_found : Response := errorMiddleware notFound.

(** ** The application

    The routes the server registers, by method and path; a request carries
    the number its [:id] parses to and, for POST and PUT, the body
    [express.json()] parsed. *)
Inductive request :=
| GET_users_isCPF (p : option number)
| GET_users_isCEP (p : option number)
| GET_users
| GET_users_id (p : option number)
| POST_users (reqBody : json)
| PUT_users_id (p : option number) (reqBody : json)
| DELETE_users_id (p : option number).

Definition handler `{Libs} (q : request) : Handler Response :=
  match q with
  | GET_users_isCPF p => get_users_isCPF p
  | GET_users_isCEP p => get_users_isCEP p
  | GET_users => get_users
  | GET_users_id p => get_users_id p
  | POST_users reqBody => post_users reqBody
  | PUT_users_id p reqBody => put_users_id p reqBody
  | DELETE_users_id p => delete_users_id p
  end.

(** One request served: the answer and the repository it leaves. *)
Definition app `{Libs} (q : request) (r : UserRepository)
  : Response * UserRepository :=
  serve (handler q) r.

(** The repository after a sequence of requests, served one after the
    other. *)
Definition requests `{Libs} (qs : list request) (r : UserRepository)
  : UserRepository :=
  foldl (fun r q => (app q r).2) r qs.

(** The request only reads: its method is GET. *)
Definition is_GET (q : request) : bool :=
  match q with
  | GET_users_isCPF _ | GET_users_isCEP _ | GET_users | GET_users_id _ => true
  | POST_users _ | PUT_users_id _ _ | DELETE_users_id _ => false
  end.

(** An operation that supplies no id: every operation but an [update] whose
    payload has an [id]. *)
Definition no_id (o : operation) : Prop :=
  match o with
  | Update _ data => Partial.id data = None
  | Create _ | Delete _ => True
  end.

(** The ids of the collection are finite numbers. *)
Definition finite_ids (us : list IClient) : Prop :=
  Forall (fun u => finite (id u)) us.

(** An operation that supplies no infinite id. *)
Definition finite_op (o : operation) : Prop :=
  match o with
  | Update _ data => from_option finite True (Partial.id data)
  | Create _ | Delete _ => True
  end.

(** Every id is an integer from -2^53 to [hi]. *)
Definition ids_within (hi : Z) (us : list IClient) : Prop :=
  Forall (fun u => exists m : Z, id u = Int m /\ - two53 <= m <= hi) us.

(** How many records a run creates. *)
Fixpoint creates (os : list operation) : nat :=
  match os with
  | [] => 0
  | Create _ :: os' => S (creates os')
  | _ :: os' => creates os'
  end.

(** A request body of the typed model: an object whose properties are
    properties of [IClient]. *)
Definition client_keys (v : json) : bool :=
  match v with
  | JObj ps => forallb (fun kv => existsb (String.eqb kv.1) (key <$> fields)) ps
  | _ => false
  end.

(** The [id] of the body, which no schema looks at, is absent or a finite
    number. *)
Definition finite_id (v : json) : bool :=
  match prop "id" v with
  | None | Some (JNum (Int _)) => true
  | Some _ => false
  end.

(** A request whose body, if it has one, holds properties of [IClient]
    only and, where the body is merged into a record, an [id] that is
    absent or a finite number.  ([create] gives the record its own id,
    whatever [id] the body of POST has.) *)
Definition typed_request (q : request) : bool :=
  match q with
  | POST_users reqBody => client_keys reqBody
  | PUT_users_id _ reqBody => client_keys reqBody && finite_id reqBody
  | _ => true
  end.

(** The body of an error answer: [{status: "error", message: m}]. *)
Definition error_body (m : string) : json :=
  JObj [("status", JStr "error"); ("message", JStr m)].

(** The keys of a schema's shape. *)
Definition shape_keys (schema : ZodObject) : list string := fst <$> schema.

(** More sample values. *)
Module Examples.

Definition valid_payload : json :=
  JObj [("name", JStr "Ana Silva"); ("email", JStr "ana@example.com");
        ("cpf", JStr "52998224725"); ("cep", JStr "01001000");
        ("city", JStr "São Paulo")].

Definition rename_body : json := JObj [("name", JStr "Maria Lima")].


End Examples.

(** * Properties of the repository *)

Lemma findIndex_Some i us k u :
  findIndex i us = Some (k, u) ->
  us !! k = Some u /\ id u = i /\
  forall j y, us !! j = Some y -> (j < k)%nat -> id y <> i.
Proof. unfold findIndex. by rewrite list_find_Some. Qed.

Lemma findIndex_None i us :
  findIndex i us = None <-> forall u, u ∈ us -> id u <> i.
Proof. unfold findIndex. by rewrite list_find_None, Forall_forall. Qed.

Lemma getById_Some i r u :
  getById i r = Some u -> exists k, findIndex i (users r) = Some (k, u).
Proof.
  unfold getById. destruct (findIndex i (users r)) as [[k v]|] eqn:E; [|done].
  simpl. intros [= ->]. by exists k.
Qed.

Lemma getById_elem_of i r u : getById i r = Some u -> u ∈ users r /\ id u = i.
Proof.
  intros [k Hk]%getById_Some. apply findIndex_Some in Hk as (Hu & Hi & _).
  split; [by eapply list_elem_of_lookup_2|done].
Qed.

(** In a collection without repeated ids, [getById] finds every record
    under its own id. *)
Lemma getById_present r u :
  NoDup (ids (users r)) -> u ∈ users r -> getById (id u) r = Some u.
Proof.
  intros Hnd Hu. unfold getById.
  destruct (findIndex (id u) (users r)) as [[k v]|] eqn:E.
  - apply findIndex_Some in E as (Hv & Hid & _). simpl. f_equal.
    apply list_elem_of_lookup_1 in Hu as [j Hj].
    assert (k = j) as ->; [|congruence].
    eapply NoDup_lookup; [exact Hnd| |];
      unfold ids; rewrite list_lookup_fmap; [by rewrite Hv|by rewrite Hj, Hid].
  - rewrite findIndex_None in E. by destruct (E u Hu).
Qed.


Lemma num_lt_irrefl x : ~ num_lt x x.
Proof. destruct x; simpl; lia. Qed.

Lemma num_lt_trans x y z : num_lt x y -> num_lt y z -> num_lt x z.
Proof. destruct x, y, z; simpl; try done; lia. Qed.

Lemma num_max_lt x y : num_lt x y -> num_max x y = y.
Proof. destruct x, y; simpl; try done. intros ?. f_equal. lia. Qed.

(** Adding one to a safe number is exact, and gives a larger, finite
    number. *)
Lemma add_one_safe x :
  safe x -> exists n, x = Int n /\ add_one x = Int (n + 1).
Proof.
  destruct x as [n| |]; simpl; try done. intros [Hl Hu]. exists n.
  split; [done|].
  by rewrite (proj2 (Z.leb_le _ _) Hl), (proj2 (Z.ltb_lt _ _) Hu).
Qed.

Lemma add_one_lt x : safe x -> num_lt x (add_one x).
Proof. intros (n & -> & ->)%add_one_safe. simpl. lia. Qed.

Lemma add_one_finite x : finite x -> finite (add_one x).
Proof.
  destruct x as [n| |]; simpl; try done. intros _.
  repeat case_match; done.
Qed.

(** The sum at and around 2^53, as JavaScript computes it. *)
Lemma add_one_around_two53 :
  add_one (two53 - 1) = two53 /\
  add_one two53 = two53 /\
  add_one (two53 + 2) = Int (two53 + 4) /\
  add_one (- two53) = Int (- two53 + 1) /\
  add_one (- two53 - 2) = Int (- two53) /\
  add_one PosInf = PosInf.
Proof. by split_and!. Qed.

Lemma max_id_ascending us : ascending us -> max_id us = id <$> last us.
Proof.
  unfold ascending, ids. induction us as [|u us IH]; [done|].
  rewrite fmap_cons, StronglySorted_cons. intros [Hlt Hs].
  cbn [max_id foldr]. fold (max_id us). rewrite (IH Hs).
  destruct us as [|v us]; [done|].
  change (last (u :: v :: us)) with (last (v :: us)).
  destruct (last (v :: us)) as [w|] eqn:Hw.
  - simpl. f_equal. apply num_max_lt.
    apply last_Some_elem_of in Hw.
    rewrite Forall_forall in Hlt.
    apply Hlt. by apply list_elem_of_fmap_2.
  - by apply last_None in Hw.
Qed.

Lemma ascending_le_last us u :
  ascending us -> u ∈ us -> num_le (id u) (last_id us).
Proof.
  unfold ascending, ids, last_id. intros Hs Hu.
  destruct (last us) as [w|] eqn:Hw.
  - apply last_Some in Hw as [us' ->]. simpl.
    rewrite fmap_app, StronglySorted_app in Hs. destruct Hs as (Hlt & _ & _).
    apply elem_of_app in Hu as [Hu|Hu%list_elem_of_singleton];
      [|subst; by left].
    right. apply Hlt; [by apply list_elem_of_fmap_2|].
    simpl. apply list_elem_of_here.
  - apply last_None in Hw. subst. by apply not_elem_of_nil in Hu.
Qed.

Lemma ascending_NoDup us : ascending us -> NoDup (ids us).
Proof.
  unfold ascending. generalize (ids us). intros l.
  induction 1 as [|x l _ IH Hx]; constructor; [|done].
  rewrite Forall_forall in Hx. intros Hin%Hx. by apply num_lt_irrefl in Hin.
Qed.

(** Below the successor of a safe last id, every id of a growing
    collection. *)
Lemma ascending_lt_next us u :
  ascending us -> safe (last_id us) -> u ∈ us ->
  num_lt (id u) (add_one (last_id us)).
Proof.
  intros Hs Hsafe Hu. pose proof (add_one_lt _ Hsafe) as Hlt.
  destruct (ascending_le_last _ _ Hs Hu) as [-> | Hle]; [done|].
  by eapply num_lt_trans.
Qed.

Lemma StronglySorted_delete {A} (R : relation A) (l : list A) k :
  StronglySorted R l -> StronglySorted R (base.delete k l).
Proof.
  intros Hs. revert k. induction Hs as [|x l Hs IH Hx]; intros [|k]; simpl;
    [constructor|constructor|done|].
  constructor; [apply IH|by apply Forall_delete].
Qed.

Lemma merge_empty u : merge u Partial.empty = u.
Proof. by destruct u. Qed.

Lemma merge_get u data f :
  get f (merge u data) = from_option Some (get f u) (supplied f data).
Proof.
  destruct data as [di de dn dc dr dz ds db dt da]; destruct f; simpl;
    match goal with |- context [from_option _ _ ?o] => is_var o; destruct o end;
    reflexivity.
Qed.

(** ** create *)

(** C1, as amended: the record [create] returns has the id of the last
    record of the collection (0 when there is none) plus one, the sum being
    that of doubles: exactly one more when the last id is an integer from
    -2^53 to 2^53 - 1, so 1 in an empty collection.  The record is appended
    and the length grows by exactly one.  Where the ids grow along the
    collection, that id is one more than the largest id. *)
Theorem create_id_follows_last (user : Omit.t) (r : UserRepository) :
  id (create user r).1 = add_one (last_id (users r)) /\
  (forall n : Z, last_id (users r) = n -> - two53 <= n < two53 ->
     id (create user r).1 = Int (n + 1)) /\
  (users r = [] -> id (create user r).1 = 1) /\
  users (create user r).2 = users r ++ [(create user r).1] /\
  length (users (create user r).2) = S (length (users r)) /\
  (ascending (users r) -> id (create user r).1 = spec_next_id (users r)).
Proof.
  split_and!; simpl; try done.
  - intros n -> Hn.
    by destruct (add_one_safe n Hn) as (n' & [= <-] & ->).
  - by intros ->.
  - rewrite length_app. simpl. lia.
  - intros Hs. unfold spec_next_id, last_id. rewrite (max_id_ascending _ Hs).
    by destruct (last (users r)).
Qed.

Lemma create_id_follows_last_witness :
  ascending (users Sample.seeded) /\
  last_id (users Sample.seeded) = 3 /\
  id (create Sample.ana Sample.seeded).1 = 4 /\
  id (create Sample.ana Sample.seeded).1 = spec_next_id (users Sample.seeded).
Proof.
  assert (ascending (users Sample.seeded)) as Hs.
  { unfold ascending. simpl. repeat constructor; simpl; lia. }
  destruct (create_id_follows_last Sample.ana Sample.seeded)
    as (_ & Hexact & _ & _ & _ & Hmax).
  split; [exact Hs|]. split; [reflexivity|].
  split; [|exact (Hmax Hs)].
  apply (Hexact 3 eq_refl). unfold two53. lia.
Defined.

(** C1 as stated fails: with the ids 5, 2 the new id is 3, not 6; and
    after record 3 of the seed was given the id 0, the new id is 1, not 3. *)
Lemma create_id_is_not_max_plus_one :
  id (create Sample.ana Sample.unordered).1 = 3 /\
  spec_next_id (users Sample.unordered) = 6 /\
  id (create Sample.ana Sample.unordered).1
    <> spec_next_id (users Sample.unordered) /\
  ids (users Sample.renumbered) = [Int 1; Int 2; Int 0] /\
  id (create Sample.ana Sample.renumbered).1 = 1 /\
  spec_next_id (users Sample.renumbered) = 3.
Proof. by split_and!. Qed.

(** ** update *)

(** C2, as amended: [update] on the record found under [i] replaces it, in
    place, by its merge with the payload: a property the payload supplies
    takes the supplied value, every other property keeps the value it had;
    the [id] is kept when the payload supplies none.  The other records
    and the length of the collection are unchanged. *)
Theorem update_merges_supplied (i : number) (data : Partial.t)
    (r : UserRepository) (u : IClient) :
  getById i r = Some u ->
  exists (index : nat) (u' : IClient),
    users r !! index = Some u /\
    (update i data r).1 = Some u' /\
    users (update i data r).2 = <[index := u']> (users r) /\
    (forall f, get f u' = from_option Some (get f u) (supplied f data)) /\
    (forall f, supplied f data = None -> get f u' = get f u) /\
    (Partial.id data = None -> id u' = id u) /\
    (forall j, j <> index ->
       users (update i data r).2 !! j = users r !! j) /\
    length (users (update i data r).2) = length (users r).
Proof.
  intros [k Hk]%getById_Some. unfold update. rewrite Hk.
  pose proof (findIndex_Some _ _ _ _ Hk) as (Hu & _ & _).
  exists k, (merge u data). simpl. split_and!; try done.
  - apply list_lookup_insert_eq. by eapply lookup_lt_Some.
  - apply merge_get.
  - intros f Hf. by rewrite merge_get, Hf.
  - by intros ->.
  - intros j Hj. by apply list_lookup_insert_ne.
  - apply length_insert.
Qed.

Lemma update_merges_supplied_witness :
  getById 2 Sample.seeded = (Sample.seeded.(users) !! 1%nat) /\
  exists (index : nat) (u' : IClient),
    (update 2 (Sample.rename "Maria Lima") Sample.seeded).1 = Some u' /\
    name u' = "Maria Lima" /\ id u' = 2.
Proof.
  split; [reflexivity|].
  destruct (update_merges_supplied 2 (Sample.rename "Maria Lima")
              Sample.seeded _ eq_refl)
    as (index & u' & _ & Hret & _ & Hget & _ & Hid & _).
  exists index, u'. split; [exact Hret|].
  pose proof (Hget f_name) as Hn. simpl in Hn.
  split; [congruence|]. rewrite Hid; reflexivity.
Defined.

(** C2 as stated fails: a payload that supplies an [id] changes the id;
    PUT /users/1 with the body [{id: 7}] passes the schema and answers 200
    with the record under its new id. *)
Lemma update_can_change_id :
  id <$> getById 1 Sample.seeded = Some (Int 1) /\
  id <$> (update 1 (Sample.renumber 7) Sample.seeded).1 = Some (Int 7) /\
  status (serve (@put_users_id Sample.libs (Some (Int 1)) (JObj [("id", JNum 7)]))
            Sample.seeded).1 = 200 /\
  num_prop "id"
    (body (serve (@put_users_id Sample.libs (Some (Int 1)) (JObj [("id", JNum 7)]))
             Sample.seeded).1) = Some (Int 7).
Proof. by split_and!. Qed.

(** C10, as amended: for a record [u] of the collection, [update] with its
    id and the empty payload returns the first record of the collection
    with that id, as it was, which is [u] itself when the ids are
    distinct, and leaves the collection, contents and order, as it was. *)
Theorem update_empty_identity (r : UserRepository) (u : IClient) :
  u ∈ users r ->
  exists v,
    getById (id u) r = Some v /\
    (update (id u) Partial.empty r).1 = Some v /\
    users (update (id u) Partial.empty r).2 = users r /\
    (NoDup (ids (users r)) -> v = u).
Proof.
  intros Hu.
  destruct (findIndex (id u) (users r)) as [[k v]|] eqn:Hk.
  - exists v. unfold getById, update. rewrite Hk.
    pose proof (findIndex_Some _ _ _ _ Hk) as (Hv & _ & _).
    simpl. rewrite merge_empty, (list_insert_id _ _ _ Hv). split_and!; try done.
    intros Hnd. pose proof (getById_present r u Hnd Hu) as Hg.
    unfold getById in Hg. rewrite Hk in Hg. by injection Hg.
  - rewrite findIndex_None in Hk. by destruct (Hk u Hu).
Qed.

Lemma update_empty_identity_witness :
  Sample.client 2 "Ivo" ∈ users Sample.unordered /\
  exists v,
    (update 2 Partial.empty Sample.unordered).1 = Some v /\
    users (update 2 Partial.empty Sample.unordered).2 = users Sample.unordered.
Proof.
  assert (Sample.client 2 "Ivo" ∈ users Sample.unordered) as Hu.
  { apply (list_elem_of_lookup_2 _ 1%nat). reflexivity. }
  split; [exact Hu|].
  destruct (update_empty_identity Sample.unordered (Sample.client 2 "Ivo") Hu)
    as (v & _ & Hret & Hus & _).
  exists v. split; [exact Hret|exact Hus].
Defined.

(** C10 as stated fails: where two records have the id 2, Eva before Ivo,
    [update] with the id of Ivo and the empty payload returns Eva. *)
Lemma update_empty_returns_other :
  ids (users Sample.doubled) = [Int 2; Int 2] /\
  Sample.client 2 "Ivo" ∈ users Sample.doubled /\
  (update (id (Sample.client 2 "Ivo")) Partial.empty Sample.doubled).1
    = Some (Sample.client 2 "Eva") /\
  (update (id (Sample.client 2 "Ivo")) Partial.empty Sample.doubled).1
    <> Some (Sample.client 2 "Ivo").
Proof.
  split_and!; [done| |done|done].
  apply (list_elem_of_lookup_2 _ 1%nat). reflexivity.
Qed.

(** ** delete *)

(** C7: [delete] of an id no record has returns nothing and leaves the
    repository as it was: the same records in the same order, the same
    file, and no write. *)
Theorem delete_absent_unchanged (i : number) (r : UserRepository) :
  (forall u, u ∈ users r -> id u <> i) ->
  delete i r = (None, r) /\
  users (delete i r).2 = users r /\
  length (users (delete i r).2) = length (users r) /\
  file (delete i r).2 = file r /\
  writes (delete i r).2 = writes r.
Proof.
  intros Hno%findIndex_None. unfold delete. by rewrite Hno.
Qed.

Lemma delete_absent_unchanged_witness :
  (forall u, u ∈ users Sample.seeded -> id u <> 9) /\
  delete 9 Sample.seeded = (None, Sample.seeded).
Proof.
  assert (forall u, u ∈ users Sample.seeded -> id u <> 9) as Hno.
  { intros u Hu. simpl in Hu.
    repeat (apply elem_of_cons in Hu as [->|Hu]; [simpl; congruence|]).
    by apply not_elem_of_nil in Hu. }
  split; [exact Hno|].
  exact (proj1 (delete_absent_unchanged 9 Sample.seeded Hno)).
Defined.

Lemma delete_found i r k u :
  findIndex i (users r) = Some (k, u) ->
  (delete i r).1 = Some u /\ users (delete i r).2 = base.delete k (users r).
Proof.
  intros Hk. unfold delete. rewrite Hk.
  by pose proof (findIndex_Some _ _ _ _ Hk) as (-> & _ & _).
Qed.

(** ** The ids of the collection *)

Lemma create_ascending user r :
  ascending (users r) -> safe (last_id (users r)) ->
  ascending (users (create user r).2).
Proof.
  intros Hs Hsafe. unfold ascending, ids. simpl. rewrite fmap_app.
  apply StronglySorted_app_2; [|done|repeat constructor].
  intros x1 x2 (u & -> & Hu)%list_elem_of_fmap Hx2. simpl in Hx2.
  apply list_elem_of_singleton in Hx2 as ->.
  by apply ascending_lt_next.
Qed.

(** Past 2^53 the sum is rounded: the id after 2^53 is 2^53 again, and the
    collection then has the id twice. *)
Lemma create_at_two53 user r u :
  last (users r) = Some u -> id u = two53 ->
  id (create user r).1 = two53 /\ ~ NoDup (ids (users (create user r).2)).
Proof.
  intros Hu Hid.
  assert (id (create user r).1 = two53) as Hnew.
  { simpl. unfold last_id. rewrite Hu. simpl. by rewrite Hid. }
  split; [done|]. simpl in Hnew. apply last_Some in Hu as [us Hus].
  unfold ids. simpl. rewrite Hnew, Hus, !fmap_app. simpl. rewrite Hid.
  rewrite <- app_assoc. intros Hnd%NoDup_app. destruct Hnd as (_ & _ & Hnd).
  apply NoDup_cons in Hnd as [Hnd _]. apply Hnd, list_elem_of_here.
Qed.

(** So it is in the repository whose last id is 2^53: its ids grow, and
    after [create] the id 2^53 is there twice. *)
Lemma create_at_limit_repeats :
  ascending (users Sample.at_limit) /\
  id (create Sample.ana Sample.at_limit).1 = two53 /\
  ~ NoDup (ids (users (create Sample.ana Sample.at_limit).2)).
Proof.
  split; [unfold ascending; simpl; repeat constructor; simpl; unfold two53; lia|].
  by apply (create_at_two53 _ _ (Sample.client two53 "Ivo")).
Qed.

Lemma delete_ids i r : exists k, ids (users (delete i r).2) = base.delete k (ids (users r))
                            \/ users (delete i r).2 = users r.
Proof.
  destruct (findIndex i (users r)) as [[k u]|] eqn:E.
  - exists k. left. rewrite (proj2 (delete_found _ _ _ _ E)).
    unfold ids. apply list_fmap_delete.
  - exists 0%nat. right. unfold delete. by rewrite E.
Qed.

Lemma update_ids i data r :
  Partial.id data = None -> ids (users (update i data r).2) = ids (users r).
Proof.
  intros Hd. unfold update.
  destruct (findIndex i (users r)) as [[k u]|] eqn:E; [|done].
  apply findIndex_Some in E as (Hu & _ & _). simpl.
  unfold ids. rewrite list_fmap_insert. apply list_insert_id.
  rewrite list_lookup_fmap, Hu. simpl. by rewrite Hd.
Qed.

(** C3, as amended: ids that grow along the collection are distinct, and
    growing ids are preserved by [create] when the last id is an integer
    from -2^53 to 2^53 - 1 (where adding one is exact), by [delete], and by
    [update] with a payload that supplies no id.  Distinct ids alone are
    preserved by [delete] and by such an [update]. *)
Theorem ascending_ids_preserved (r : UserRepository) :
  (ascending (users r) ->
     NoDup (ids (users r)) /\
     (forall user, safe (last_id (users r)) ->
        ascending (users (create user r).2)) /\
     (forall i, ascending (users (delete i r).2)) /\
     (forall i data, Partial.id data = None ->
        ascending (users (update i data r).2))) /\
  (NoDup (ids (users r)) ->
     (forall i, NoDup (ids (users (delete i r).2))) /\
     (forall i data, Partial.id data = None ->
        NoDup (ids (users (update i data r).2)))).
Proof.
  split.
  - intros Hs. split_and!.
    + by apply ascending_NoDup.
    + intros user Hsafe. by apply create_ascending.
    + intros i. unfold ascending.
      destruct (delete_ids i r) as [k [-> | ->]]; [|done].
      by apply StronglySorted_delete.
    + intros i data Hd. unfold ascending. by rewrite update_ids.
  - intros Hnd. split.
    + intros i. destruct (delete_ids i r) as [k [-> | ->]]; [|done].
      eapply sublist_NoDup; [done|apply sublist_delete].
    + intros i data Hd. by rewrite update_ids.
Qed.

Lemma ascending_ids_preserved_witness :
  ascending (users Sample.seeded) /\
  safe (last_id (users Sample.seeded)) /\
  NoDup (ids (users (create Sample.ana Sample.seeded).2)) /\
  ascending (users (delete 2 Sample.seeded).2).
Proof.
  assert (ascending (users Sample.seeded)) as Hs.
  { unfold ascending. simpl. repeat constructor; simpl; lia. }
  assert (safe (last_id (users Sample.seeded))) as Hsafe.
  { simpl. unfold two53. lia. }
  split; [exact Hs|]. split; [exact Hsafe|].
  destruct (proj1 (ascending_ids_preserved Sample.seeded) Hs)
    as (_ & Hc & Hd & _).
  split; [|exact (Hd 2)].
  exact (ascending_NoDup _ (Hc Sample.ana Hsafe)).
Defined.

(** C3 as stated fails: from the distinct ids 1, 2, 0 [create] makes
    1, 2, 0, 1; and an [update] that supplies the id of another record
    repeats it. *)
Lemma distinct_ids_not_preserved :
  NoDup (ids (users Sample.renumbered)) /\
  ~ NoDup (ids (users (create Sample.ana Sample.renumbered).2)) /\
  NoDup (ids (users Sample.seeded)) /\
  ~ NoDup (ids (users (update 1 (Sample.renumber 2) Sample.seeded).2)).
Proof.
  split_and!; simpl; [distinct|repeated|distinct|repeated].
Qed.

(** ** Persistence *)

(** A record with a finite id is read back from what is written of it; one
    with an infinite id is not: its id is written as [null]. *)
Lemma asIClient_toJSON u : finite (id u) -> asIClient (toJSON u) = Some u.
Proof.
  destruct u as [[i| |] e n c [r|] z [s|] [b|] [t|] [a|]]; by simpl.
Qed.

Lemma asIClient_toJSON_infinite u :
  ~ finite (id u) -> asIClient (toJSON u) = None.
Proof.
  destruct u as [[i| |] e n c [r|] z [s|] [b|] [t|] [a|]]; simpl;
    first [done | by intros []].
Qed.

Lemma asIClients_toJSON us :
  finite_ids us -> asIClients (JArr (toJSON <$> us)) = Some us.
Proof.
  intros Hf. simpl. apply mapM_Some, Forall2_fmap_l, Forall_Forall2_diag.
  eapply Forall_impl; [exact Hf|]. intros u. apply asIClient_toJSON.
Qed.

Lemma saveToFile_persisted r : finite_ids (users r) -> persisted (saveToFile r).
Proof. unfold persisted. simpl. apply asIClients_toJSON. Qed.

Lemma last_id_finite us : finite_ids us -> finite (last_id us).
Proof.
  unfold last_id, finite_ids. intros Hf. destruct (last us) as [u|] eqn:Hu; [|done].
  simpl. rewrite Forall_forall in Hf. by apply Hf, last_Some_elem_of.
Qed.

Lemma merge_finite u data :
  finite (id u) -> from_option finite True (Partial.id data) ->
  finite (id (merge u data)).
Proof. destruct data as [[i|]]; by simpl. Qed.

(** Finite ids stay finite under the operations that supply no infinite
    id. *)
Lemma step_finite_ids r o :
  finite_ids (users r) -> finite_op o -> finite_ids (users (step r o)).
Proof.
  unfold finite_ids. intros Hf Ho. destruct o as [user|i data|i]; simpl.
  - apply Forall_app. split; [done|]. apply Forall_singleton. simpl.
    by apply add_one_finite, last_id_finite.
  - unfold update. destruct (findIndex i (users r)) as [[k u]|] eqn:Hk; [|done].
    simpl. apply Forall_insert; [done|]. apply merge_finite; [|done].
    apply findIndex_Some in Hk as (Hu & _ & _).
    rewrite Forall_forall in Hf. by apply Hf, (list_elem_of_lookup_2 _ k).
  - unfold delete. destruct (findIndex i (users r)) as [[k u]|]; [|done].
    simpl. by apply Forall_delete.
Qed.


Lemma step_persisted r o :
  finite_ids (users r) -> finite_op o -> persisted r -> persisted (step r o).
Proof.
  intros Hf Ho Hp. pose proof (step_finite_ids r o Hf Ho) as Hf'.
  destruct o as [user|i data|i]; simpl in *.
  - by apply saveToFile_persisted.
  - unfold update in *. destruct (findIndex i (users r)) as [[k u]|]; [|done].
    by apply saveToFile_persisted.
  - unfold delete in *. destruct (findIndex i (users r)) as [[k u]|]; [|done].
    by apply saveToFile_persisted.
Qed.


Lemma seed_finite_ids c1 c2 c3 : finite_ids (seed c1 c2 c3).
Proof. repeat constructor. Qed.

(** [init] leaves a repository whose file holds its collection. *)
Lemma init_persisted c1 c2 c3 r r0 :
  init c1 c2 c3 r = Some r0 -> persisted r0.
Proof.
  unfold init, persisted. destruct (file r) as [data|] eqn:Hf.
  - destruct (asIClients data) as [us|] eqn:Hus; [|done].
    simpl. intros [= <-]. simpl. by rewrite Hf.
  - intros [= <-]. apply saveToFile_persisted, seed_finite_ids.
Qed.





(** * Properties of the validation pipeline and of the routes *)

Section Routes.
Context `{Libs}.

Lemma validateBody_invalid schema reqBody r :
  issues schema reqBody <> [] ->
  validateBody schema reqBody r
    = (Thrown (AppError "Invalid request data" 400), r).
Proof. unfold validateBody. by destruct (issues schema reqBody). Qed.

Lemma validateBody_valid schema reqBody r :
  issues schema reqBody = [] -> validateBody schema reqBody r = (Returned (), r).
Proof. unfold validateBody. by intros ->. Qed.

Lemma parse_required_nil k cs v :
  parse_property k (required cs) v = [] -> exists s, v = Some (JStr s).
Proof. destruct v as [[]|]; simpl; try done. eauto. Qed.

Lemma parse_optional_nil k cs v :
  parse_property k (optional (required cs)) v = [] ->
  v = None \/ exists s, v = Some (JStr s).
Proof. destruct v as [[]|]; simpl; try done; eauto. Qed.

(** A body that passes [createUserSchema] is an [Omit<IClient, "id">]. *)
Lemma issues_create_asOmit reqBody :
  issues createUserSchema reqBody = [] -> is_Some (asOmit reqBody).
Proof.
  destruct reqBody as [| | | | |ps]; try done.
  unfold issues, createUserSchema.
  cbn [flat_map]. unfold prop.
  intros Hi.
  repeat (apply app_eq_nil in Hi as [?Hp Hi]).
  repeat match goal with
         | Hp : parse_property _ (required _) _ = [] |- _ =>
             apply parse_required_nil in Hp as [? Hp]
         | Hp : parse_property _ (optional _) _ = [] |- _ =>
             apply parse_optional_nil in Hp as [Hp | [? Hp]]
         end;
    unfold asOmit, str_prop, opt_str_prop, prop;
    repeat match goal with Hp : lookup_prop _ _ = _ |- _ => rewrite Hp; clear Hp end;
    by eexists.
Qed.

(** What the validator finds in the example payload. *)
Lemma issues_invalid_payload :
  issues createUserSchema Sample.invalid_payload
  = [ {| path := ["name"];
         message := Message "Nome deve ter ao menos 3 letras" |} ]
    ++ (if isEmail "bad" then []
        else [ {| path := ["email"];
                  message := Message "Formato de email inválido" |} ])
    ++ (if isCPF "000" then []
        else [ {| path := ["cpf"]; message := Message "CPF inválido" |} ])
    ++ [ {| path := ["cep"];
            message := Message "CEP deve conter 8 dígitos" |} ].
Proof.
  unfold issues, createUserSchema, Sample.invalid_payload.
  cbn [flat_map prop lookup_prop]. simpl.
  rewrite !filter_cons, !filter_nil. simpl.
  by destruct (isEmail "bad"), (isCPF "000").
Qed.

(** C4, as amended: a body that violates the schema of its route is
    answered by POST /users and by PUT /users/:id with status 400 and the
    body [{status: "error", message: "Invalid request data"}], which has no
    [errors] property, and the repository is left as it was.  The example
    payload is answered so: the validator finds the error of [name] and of
    [cep] (and those of [email] and [cpf] when the libraries reject "bad"
    and "000"), and none of them is in the answer. *)
Theorem invalid_body_answer (reqBody : json) (p : option number) (r : UserRepository) :
  (issues createUserSchema reqBody <> [] ->
     serve (post_users reqBody) r = (invalid_request, r)) /\
  (issues updateUserSchema reqBody <> [] ->
     serve (put_users_id p reqBody) r = (invalid_request, r)) /\
  status invalid_request = 400 /\
  body invalid_request
    = JObj [("status", JStr "error"); ("message", JStr "Invalid request data")] /\
  prop "errors" (body invalid_request) = None /\
  serve (post_users Sample.invalid_payload) r = (invalid_request, r) /\
  fieldErrors (issues createUserSchema Sample.invalid_payload) "name"
    = [Message "Nome deve ter ao menos 3 letras"] /\
  fieldErrors (issues createUserSchema Sample.invalid_payload) "cep"
    = [Message "CEP deve conter 8 dígitos"] /\
  (isEmail "bad" = false ->
     fieldErrors (issues createUserSchema Sample.invalid_payload) "email"
       = [Message "Formato de email inválido"]) /\
  (isCPF "000" = false ->
     fieldErrors (issues createUserSchema Sample.invalid_payload) "cpf"
       = [Message "CPF inválido"]).
Proof.
  assert (forall schema h,
            issues schema reqBody <> [] ->
            serve (let* _ := validateBody schema reqBody in h) r
              = (invalid_request, r)) as Hserve.
  { intros schema h Hi. unfold serve, bind.
    by rewrite (validateBody_invalid _ _ _ Hi). }
  split_and!; try done.
  - apply Hserve.
  - apply Hserve.
  - rewrite issues_invalid_payload.
    by destruct (isEmail "bad"), (isCPF "000").
  - rewrite issues_invalid_payload.
    by destruct (isEmail "bad"), (isCPF "000").
  - intros He. rewrite issues_invalid_payload, He. by destruct (isCPF "000").
  - intros Hc. rewrite issues_invalid_payload, Hc. by destruct (isEmail "bad").
Qed.

Lemma fieldErrors_app e1 e2 k :
  fieldErrors (e1 ++ e2) k = fieldErrors e1 k ++ fieldErrors e2 k.
Proof. unfold fieldErrors. by rewrite filter_app, fmap_app. Qed.

Lemma parse_property_path k zs v :
  Forall (fun i => path i = [k]) (parse_property k zs v).
Proof.
  destruct v as [[]|]; simpl; try (by repeat constructor).
  - apply Forall_fmap, Forall_forall. by intros c _.
  - destruct (isOptional zs); by repeat constructor.
Qed.

(** The errors of a property are those its own schema raises. *)
Lemma fieldErrors_parse_property k k' zs v :
  fieldErrors (parse_property k zs v) k'
  = if decide (k = k') then message <$> parse_property k zs v else [].
Proof.
  unfold fieldErrors.
  induction (parse_property_path k zs v) as [|i l Hi _ IH]; simpl.
  - by case_decide.
  - rewrite filter_cons, Hi. repeat case_decide; simplify_eq; try done.
    simpl. by f_equal.
Qed.

(** The errors of [cep], for any object body. *)
Lemma fieldErrors_cep ps :
  fieldErrors (issues createUserSchema (JObj ps)) "cep"
  = message <$> parse_property "cep"
                  (required [Length 8 "CEP deve conter 8 dígitos"])
                  (lookup_prop "cep" ps).
Proof.
  unfold issues, createUserSchema. cbn [flat_map prop].
  rewrite !fieldErrors_app, !fieldErrors_parse_property.
  repeat (case_decide; [try done|]; try (simplify_eq; fail)).
  all: try by rewrite ?app_nil_r.
Qed.

(** The check of [cep] is the length alone.  In any body, a [cep] that is
    a string passes exactly when it has 8 characters, whatever they are,
    and fails with the message about 8 digits otherwise. *)
Lemma cep_checked_by_length_only (ps : list (string * json)) (s : string) :
  lookup_prop "cep" ps = Some (JStr s) ->
  (fieldErrors (issues createUserSchema (JObj ps)) "cep" = []
     <-> String.length s = 8%nat) /\
  (String.length s <> 8%nat ->
     fieldErrors (issues createUserSchema (JObj ps)) "cep"
       = [Message "CEP deve conter 8 dígitos"]).
Proof.
  intros Hs. rewrite fieldErrors_cep, Hs. simpl.
  rewrite filter_cons, filter_nil. simpl.
  destruct (Nat.eqb_spec (String.length s) 8) as [->|Hne]; simpl.
  - done.
  - split; [|done]. split; [done|]. intros ?. by destruct Hne.
Qed.

(** C5, as amended: when the lookup rejects the postal code of the record
    found, GET /users/isCEP/:id answers through [errorMiddleware] with
    status 500 and the body [{status: "error", message: "Internal Server
    Error"}]; the answer carries neither the postal code nor the text of
    the lookup error, and the repository is left as it was. *)
Theorem isCEP_rejected_answer (p : option number) (r : UserRepository)
    (u : IClient) (m : string) :
  at_param p getById r = Some u ->
  cep_promise (cep u) = Rejected m ->
  serve (get_users_isCEP p) r = (internal_error, r) /\
  status internal_error = 500 /\
  body internal_error
    = JObj [("status", JStr "error"); ("message", JStr "Internal Server Error")] /\
  prop "cep" (body internal_error) = None /\
  prop "error" (body internal_error) = None.
Proof.
  intros Hu Hm. split_and!; try done.
  unfold serve, get_users_isCEP, bind, read. by rewrite Hu, Hm.
Qed.

Lemma serve_read {A} (q : UserRepository -> A) (k : A -> Handler Response) r :
  (forall a, (k a r).2 = r) -> (serve (let* a := read q in k a) r).2 = r.
Proof.
  intros Hk. unfold serve, bind, read. specialize (Hk (q r)).
  by destruct (k (q r) r) as [[res|e] r'].
Qed.

(** C9: GET /users/isCPF/:id and GET /users/isCEP/:id leave the repository,
    collection and file, as it was, whatever the id and the outcome. *)
Theorem validation_routes_read_only (p : option number) (r : UserRepository) :
  (serve (get_users_isCPF p) r).2 = r /\
  (serve (get_users_isCEP p) r).2 = r.
Proof.
  split; apply serve_read; intros [u|]; try done.
  by destruct (cep_promise (cep u)).
Qed.

End Routes.

Lemma invalid_body_answer_witness :
  @issues Sample.libs (@createUserSchema Sample.libs) Sample.invalid_payload <> [] /\
  serve (@post_users Sample.libs Sample.invalid_payload) Sample.seeded
    = (invalid_request, Sample.seeded).
Proof.
  assert (@issues Sample.libs (@createUserSchema Sample.libs)
            Sample.invalid_payload <> []) as Hi by done.
  split; [exact Hi|].
  exact (proj1 (@invalid_body_answer Sample.libs Sample.invalid_payload None
                  Sample.seeded) Hi).
Defined.

(** C4 as stated fails: the answer to the example payload has status 400
    and a message, and no [errors] property. *)
Lemma invalid_body_answer_has_no_errors :
  status (serve (@post_users Sample.libs Sample.invalid_payload) Sample.seeded).1
    = 400 /\
  prop "message"
    (body (serve (@post_users Sample.libs Sample.invalid_payload) Sample.seeded).1)
    = Some (JStr "Invalid request data") /\
  prop "errors"
    (body (serve (@post_users Sample.libs Sample.invalid_payload) Sample.seeded).1)
    = None.
Proof. by split_and!. Qed.

Lemma isCEP_rejected_answer_witness :
  at_param (Some (Int 1)) getById Sample.seeded = Sample.seeded.(users) !! 0%nat /\
  serve (@get_users_isCEP Sample.libs (Some (Int 1))) Sample.seeded
    = (internal_error, Sample.seeded).
Proof.
  split; [reflexivity|].
  exact (proj1 (@isCEP_rejected_answer Sample.libs (Some (Int 1)) Sample.seeded
                  _ _ eq_refl eq_refl)).
Defined.

(** C5 as stated fails: for the seeded record 1, whose postal code the
    lookup rejects, the status is 500, not 400, and the body has neither
    the postal code nor the text of the lookup error. *)
Lemma isCEP_rejected_is_not_400 :
  @cep_promise Sample.libs "11111111"
    = Rejected "Todos os serviços de CEP retornaram erro." /\
  status (serve (@get_users_isCEP Sample.libs (Some (Int 1))) Sample.seeded).1 = 500 /\
  status (serve (@get_users_isCEP Sample.libs (Some (Int 1))) Sample.seeded).1 <> 400 /\
  prop "cep"
    (body (serve (@get_users_isCEP Sample.libs (Some (Int 1))) Sample.seeded).1) = None /\
  prop "error"
    (body (serve (@get_users_isCEP Sample.libs (Some (Int 1))) Sample.seeded).1) = None.
Proof. by split_and!. Qed.

(** C6, the code at an input the claim rejects: the postal code "abcdefgh"
    has 8 characters and no digit; the payload passes the schema without
    any issue, POST /users answers 201 and the record is stored with that
    postal code. *)
Lemma cep_without_digits_accepted :
  @issues Sample.libs (@createUserSchema Sample.libs) Sample.letters_payload = [] /\
  status (serve (@post_users Sample.libs Sample.letters_payload) Sample.seeded).1
    = 201 /\
  cep <$> last (users (serve (@post_users Sample.libs Sample.letters_payload)
                         Sample.seeded).2)
    = Some "abcdefgh".
Proof. by split_and!. Qed.

(** * Further properties of the repository *)

Lemma getById_None i r :
  getById i r = None <-> forall u, u ∈ users r -> id u <> i.
Proof. unfold getById. by rewrite fmap_None, findIndex_None. Qed.

Lemma findIndex_cons i x us :
  findIndex i (x :: us)
  = if decide (id x = i) then Some (0%nat, x)
    else prod_map S (fun u => u) <$> findIndex i us.
Proof. reflexivity. Qed.

Lemma findIndex_app_l i l1 l2 k u :
  findIndex i l1 = Some (k, u) -> findIndex i (l1 ++ l2) = Some (k, u).
Proof. apply list_find_app_l. Qed.

Lemma findIndex_app_r i l1 l2 :
  findIndex i l1 = None ->
  snd <$> findIndex i (l1 ++ l2) = snd <$> findIndex i l2.
Proof.
  unfold findIndex. intros Hn.
  rewrite (list_find_app_r (fun u => id u = i) _ _ Hn).
  by destruct (list_find _ l2) as [[]|].
Qed.

(** Deleting the first record with the id [i] does not change which
    record is found under another id. *)
Lemma findIndex_delete_other j i us k u :
  findIndex i us = Some (k, u) -> j <> i ->
  snd <$> findIndex j (base.delete k us) = snd <$> findIndex j us.
Proof.
  revert k. induction us as [|x us IH]; intros k; [done|].
  rewrite findIndex_cons. case_decide as Hx.
  - intros [= <- <-] Hj. change (base.delete 0%nat (x :: us)) with us.
    rewrite findIndex_cons.
    case_decide; [congruence|]. by destruct (findIndex j us) as [[]|].
  - destruct (findIndex i us) as [[k' u']|] eqn:E; [|done].
    intros [= <- <-] Hj.
    change (base.delete (S k') (x :: us)) with (x :: base.delete k' us).
    rewrite !findIndex_cons.
    case_decide; [done|]. specialize (IH k' eq_refl Hj).
    destruct (findIndex j us) as [[]|], (findIndex j (base.delete k' us)) as [[]|];
      simpl in *; congruence.
Qed.

(** Where the ids are distinct, no record is left under the id deleted. *)
Lemma findIndex_delete_same i us k u :
  NoDup (ids us) -> findIndex i us = Some (k, u) ->
  findIndex i (base.delete k us) = None.
Proof.
  revert k. induction us as [|x us IH]; intros k; [done|].
  unfold ids. rewrite fmap_cons, NoDup_cons. intros [Hx Hnd].
  rewrite findIndex_cons. case_decide as Hi.
  - intros [= <- <-]. change (base.delete 0%nat (x :: us)) with us.
    apply findIndex_None. intros v Hv Hid.
    apply Hx. rewrite Hi, <- Hid. by apply list_elem_of_fmap_2.
  - destruct (findIndex i us) as [[k' u']|] eqn:E; [|done].
    intros [= <- <-].
    change (base.delete (S k') (x :: us)) with (x :: base.delete k' us).
    rewrite findIndex_cons.
    case_decide; [done|]. by rewrite (IH k' Hnd eq_refl).
Qed.

(** The index under which an id is found depends on the ids alone. *)
Lemma findIndex_same_ids j l l' :
  ids l = ids l' -> fst <$> findIndex j l = fst <$> findIndex j l'.
Proof.
  revert l'. induction l as [|x l IH]; intros [|x' l']; try done.
  unfold ids. rewrite !fmap_cons. intros [= Hx Hl].
  rewrite !findIndex_cons, <- Hx. case_decide; [done|].
  specialize (IH l' Hl).
  destruct (findIndex j l) as [[]|], (findIndex j l') as [[]|];
    simpl in *; congruence.
Qed.

Lemma findIndex_lookup j l :
  snd <$> findIndex j l = (fst <$> findIndex j l) ≫= (l !!.).
Proof.
  destruct (findIndex j l) as [[k v]|] eqn:E; [|done].
  apply findIndex_Some in E as (Hv & _). simpl. by rewrite Hv.
Qed.

Lemma merge_idemp u data : merge (merge u data) data = merge u data.
Proof.
  destruct data as [[?|] [?|] [?|] [?|] [?|] [?|] [?|] [?|] [?|] [?|]];
    reflexivity.
Qed.

(** X1: [getById] returns nothing exactly when no record has the id, and
    otherwise the first record of the collection that has it. *)
Theorem getById_first (i : number) (r : UserRepository) :
  (getById i r = None <-> forall u, u ∈ users r -> id u <> i) /\
  (forall u, getById i r = Some u ->
     exists k : nat,
       users r !! k = Some u /\ id u = i /\
       forall j v, users r !! j = Some v -> (j < k)%nat -> id v <> i).
Proof.
  split; [apply getById_None|].
  intros u [k Hk]%getById_Some. exists k. by apply findIndex_Some.
Qed.

(** X2: [create] never changes what is found under an id that had a
    record, nor under any id other than the new one; the new record is
    found under its id exactly when no record had that id; and it is so
    where the ids grow along the collection and the last id is an integer
    from -2^53 to 2^53 - 1. *)
Theorem create_keeps_lookups (user : Omit.t) (r : UserRepository) :
  (forall j u, getById j r = Some u -> getById j (create user r).2 = Some u) /\
  (forall j, j <> id (create user r).1 ->
     getById j (create user r).2 = getById j r) /\
  (getById (id (create user r).1) (create user r).2 = Some (create user r).1
     <-> getById (id (create user r).1) r = None
         \/ getById (id (create user r).1) r = Some (create user r).1) /\
  (ascending (users r) -> safe (last_id (users r)) ->
     getById (id (create user r).1) (create user r).2 = Some (create user r).1).
Proof.
  set (newUser := (create user r).1).
  assert (forall j, getById j r = None ->
            getById j (create user r).2
            = if decide (id newUser = j) then Some newUser else None) as Hnone.
  { intros j Hj%fmap_None. unfold getById. simpl.
    rewrite (findIndex_app_r _ _ _ Hj), findIndex_cons. simpl.
    by case_decide. }
  split_and!.
  - intros j u [k Hk]%getById_Some. unfold getById. simpl.
    by rewrite (findIndex_app_l _ _ _ _ _ Hk).
  - intros j Hj. destruct (getById j r) as [u|] eqn:E.
    + apply getById_Some in E as [k Hk]. unfold getById. simpl.
      by rewrite (findIndex_app_l _ _ _ _ _ Hk).
    + rewrite (Hnone j E). case_decide; congruence.
  - destruct (getById (id newUser) r) as [u|] eqn:E.
    + apply getById_Some in E as [k Hk]. unfold getById. simpl.
      rewrite (findIndex_app_l _ _ _ _ _ Hk). simpl.
      split; [by right|by intros [?|?]].
    + rewrite (Hnone _ E). by case_decide; split; [left| |left|].
  - intros Hs Hsafe. rewrite Hnone; [by case_decide|].
    apply getById_None. intros u Hu Hid.
    pose proof (ascending_lt_next _ _ Hs Hsafe Hu) as Hlt.
    subst newUser. simpl in Hid. rewrite Hid in Hlt.
    by apply num_lt_irrefl in Hlt.
Qed.

Lemma create_keeps_lookups_witness :
  ascending (users Sample.seeded) /\
  safe (last_id (users Sample.seeded)) /\
  getById 4 (create Sample.ana Sample.seeded).2
    = Some (create Sample.ana Sample.seeded).1.
Proof.
  assert (ascending (users Sample.seeded)) as Hs.
  { unfold ascending. simpl. repeat constructor; simpl; lia. }
  assert (safe (last_id (users Sample.seeded))) as Hsafe.
  { simpl. unfold two53. lia. }
  split; [exact Hs|]. split; [exact Hsafe|].
  exact (proj2 (proj2 (proj2 (create_keeps_lookups Sample.ana Sample.seeded)))
           Hs Hsafe).
Defined.

(** X3: [delete] of an id that has a record removes the first record with
    that id, at its position [k], and returns that very record: the
    collection afterwards is the one before without its element at [k], so
    one shorter and otherwise in the same order; the file is written once
    and holds the new collection; what is found under any other id is as
    before.  Where the ids are distinct, nothing is found under the id
    afterwards. *)
Theorem delete_removes_first (i : number) (r : UserRepository) (u : IClient) :
  getById i r = Some u ->
  exists k : nat,
    users r !! k = Some u /\ id u = i /\
    (forall j v, users r !! j = Some v -> (j < k)%nat -> id v <> i) /\
    (delete i r).1 = Some u /\
    users (delete i r).2 = base.delete k (users r) /\
    S (length (users (delete i r).2)) = length (users r) /\
    users (delete i r).2 `sublist_of` users r /\
    file (delete i r).2 = Some (JArr (toJSON <$> base.delete k (users r))) /\
    writes (delete i r).2 = S (writes r) /\
    (forall j, j <> i -> getById j (delete i r).2 = getById j r) /\
    (NoDup (ids (users r)) -> getById i (delete i r).2 = None).
Proof.
  intros [k Hk]%getById_Some.
  pose proof (findIndex_Some _ _ _ _ Hk) as (Hu & Hid & Hfirst).
  exists k. split; [done|]. split; [done|]. split; [done|].
  unfold getById, delete. rewrite Hk. simpl. split_and!.
  - done.
  - done.
  - rewrite length_delete by eauto. apply lookup_lt_Some in Hu. lia.
  - apply sublist_delete.
  - done.
  - done.
  - intros j Hj. by apply (findIndex_delete_other j i _ k u).
  - intros Hnd. by rewrite (findIndex_delete_same i _ k u).
Qed.

Lemma delete_removes_first_witness :
  getById 2 Sample.seeded = users Sample.seeded !! 1%nat /\
  exists k : nat,
    (delete 2 Sample.seeded).1 = users Sample.seeded !! k /\
    users (delete 2 Sample.seeded).2 = base.delete k (users Sample.seeded).
Proof.
  split; [reflexivity|].
  destruct (delete_removes_first 2 Sample.seeded _ eq_refl)
    as (k & Hk & _ & _ & Hret & Hus & _).
  exists k. split; [|exact Hus].
  exact (eq_trans Hret (eq_sym Hk)).
Defined.

(** X4: [update] of an id no record has returns nothing and leaves the
    repository as it was: the collection, the file, and no write. *)
Theorem update_absent_unchanged (i : number) (data : Partial.t) (r : UserRepository) :
  (forall u, u ∈ users r -> id u <> i) ->
  update i data r = (None, r).
Proof. intros Hno%findIndex_None. unfold update. by rewrite Hno. Qed.

Lemma update_absent_unchanged_witness :
  (forall u, u ∈ users Sample.unordered -> id u <> 9) /\
  update 9 (Sample.rename "Rui") Sample.unordered = (None, Sample.unordered).
Proof.
  assert (forall u, u ∈ users Sample.unordered -> id u <> 9) as Hno.
  { intros u Hu. simpl in Hu.
    repeat (apply elem_of_cons in Hu as [->|Hu]; [simpl; congruence|]).
    by apply not_elem_of_nil in Hu. }
  split; [exact Hno|].
  exact (update_absent_unchanged 9 (Sample.rename "Rui") Sample.unordered Hno).
Defined.

Lemma update_found i data r k u :
  findIndex i (users r) = Some (k, u) ->
  (update i data r).1 = Some (merge u data) /\
  users (update i data r).2 = <[k := merge u data]> (users r).
Proof.
  intros Hk. unfold update. rewrite Hk. simpl. split; [|done].
  apply list_lookup_insert_eq.
  apply findIndex_Some in Hk as (Hu & _). by eapply lookup_lt_Some.
Qed.

(** X5: after an [update] whose payload supplies no id, the merged record
    is what is found under the id, what is found under any other id is as
    before, and the same [update] once more changes nothing in the
    collection. *)
Theorem update_then_lookup (i : number) (data : Partial.t) (r : UserRepository)
    (u : IClient) :
  getById i r = Some u ->
  Partial.id data = None ->
  getById i (update i data r).2 = Some (merge u data) /\
  (forall j, j <> i -> getById j (update i data r).2 = getById j r) /\
  users (update i data (update i data r).2).2 = users (update i data r).2.
Proof.
  intros [k Hk]%getById_Some Hd.
  pose proof (findIndex_Some _ _ _ _ Hk) as (Hu & Hi & _).
  pose proof (update_found i data r k u Hk) as [_ Hus].
  pose proof (update_ids i data r Hd) as Hids.
  assert (forall j, getById j (update i data r).2
                    = (fst <$> findIndex j (users r))
                        ≫= (<[k := merge u data]> (users r) !!.)) as Hget.
  { intros j. unfold getById.
    rewrite findIndex_lookup, (findIndex_same_ids j _ _ Hids). by rewrite Hus. }
  assert (getById i (update i data r).2 = Some (merge u data)) as Hfound.
  { rewrite Hget, Hk. simpl. apply list_lookup_insert_eq.
    by eapply lookup_lt_Some. }
  split_and!.
  - done.
  - intros j Hj. rewrite Hget. unfold getById. rewrite findIndex_lookup.
    destruct (findIndex j (users r)) as [[k' v]|] eqn:E; [|done].
    simpl. apply list_lookup_insert_ne. intros <-.
    apply findIndex_Some in E as (Hv & Hjv & _). congruence.
  - apply getById_Some in Hfound as [k' Hk'].
    pose proof (update_found i data _ k' _ Hk') as [_ ->].
    rewrite merge_idemp. apply list_insert_id.
    by apply findIndex_Some in Hk' as (? & _).
Qed.

Lemma update_then_lookup_witness :
  getById 2 Sample.seeded = users Sample.seeded !! 1%nat /\
  Partial.id (Sample.rename "Maria Lima") = None /\
  name <$> getById 2 (update 2 (Sample.rename "Maria Lima") Sample.seeded).2
    = Some "Maria Lima".
Proof.
  split; [reflexivity|]. split; [reflexivity|].
  rewrite (proj1 (update_then_lookup 2 (Sample.rename "Maria Lima")
                    Sample.seeded _ eq_refl eq_refl)).
  reflexivity.
Defined.



Lemma seed_ascending c1 c2 c3 : ascending (seed c1 c2 c3).
Proof. unfold ascending. simpl. repeat constructor; simpl; lia. Qed.

Lemma ids_within_mono hi hi' us :
  hi <= hi' -> ids_within hi us -> ids_within hi' us.
Proof.
  intros Hle Hw. eapply Forall_impl; [exact Hw|].
  intros u (m & Hm & Hb). exists m. split; [done|lia].
Qed.

Lemma ids_within_ids hi us :
  ids_within hi us <->
  Forall (fun x : number => exists m : Z, x = Int m /\ - two53 <= m <= hi)
    (ids us).
Proof. unfold ids_within, ids. by rewrite Forall_fmap. Qed.

Lemma update_ids_within hi i data r :
  Partial.id data = None -> ids_within hi (users r) ->
  ids_within hi (users (update i data r).2).
Proof. intros Hd. by rewrite !ids_within_ids, update_ids. Qed.

Lemma delete_ids_within hi i r :
  ids_within hi (users r) -> ids_within hi (users (delete i r).2).
Proof.
  intros Hw. unfold delete.
  destruct (findIndex i (users r)) as [[k u]|]; [|done].
  simpl. by apply Forall_delete.
Qed.

Lemma ids_within_last hi us :
  0 <= hi -> ids_within hi us ->
  exists m : Z, last_id us = Int m /\ - two53 <= m <= hi.
Proof.
  intros Hhi Hw. unfold last_id. destruct (last us) as [u|] eqn:Hu.
  - simpl. unfold ids_within in Hw. rewrite Forall_forall in Hw.
    by apply Hw, last_Some_elem_of.
  - exists 0. simpl. unfold two53. split; [done|lia].
Qed.

(** One operation that supplies no id, on ids that grow and are integers
    from -2^53 to [hi]: the ids still grow, and are within [hi], or
    [hi + 1] after a [create]. *)
Lemma step_ascending r o hi :
  no_id o -> 0 <= hi < two53 ->
  ascending (users r) -> ids_within hi (users r) ->
  ascending (users (step r o)) /\
  ids_within (hi + Z.of_nat (creates [o])) (users (step r o)).
Proof.
  destruct o as [user|i data|i]; simpl; intros Hno Hhi Hs Hw.
  - destruct (ids_within_last hi (users r)) as (m & Hm & Hb); [lia|done|].
    assert (safe (last_id (users r))) as Hsafe.
    { rewrite Hm. simpl. lia. }
    split; [by apply create_ascending|].
    apply Forall_app. split; [by apply (ids_within_mono hi); [lia|]|].
    apply Forall_singleton. simpl.
    destruct (add_one_safe _ Hsafe) as (m' & Hm' & ->).
    exists (m' + 1). split; [done|]. rewrite Hm in Hm'. injection Hm' as <-. lia.
  - rewrite Z.add_0_r. split; [unfold ascending; by rewrite update_ids|].
    by apply update_ids_within.
  - rewrite Z.add_0_r. split; [|by apply delete_ids_within].
    unfold ascending. destruct (delete_ids i r) as [k [-> | ->]]; [|done].
    by apply StronglySorted_delete.
Qed.

Lemma run_ascending os r hi :
  Forall no_id os -> 0 <= hi -> hi + Z.of_nat (creates os) <= two53 ->
  ascending (users r) -> ids_within hi (users r) ->
  ascending (users (run os r)).
Proof.
  unfold run. intros Hos. revert r hi.
  induction Hos as [|o os Ho _ IH]; intros r hi Hhi Hroom Hs Hw; [done|].
  simpl. destruct (decide (creates [o] = 0%nat)) as [Hc|Hc].
  - assert (creates (o :: os) = creates os) as Hcs by (by destruct o).
    destruct (decide (hi < two53)) as [Hlt|Hge].
    + destruct (step_ascending r o hi Ho (conj Hhi Hlt) Hs Hw) as [Hs' Hw'].
      rewrite Hc, Z.add_0_r in Hw'. apply (IH _ hi); [done|lia|done|done].
    + assert (creates os = 0%nat) as Hz by lia.
      assert (ascending (users (step r o)) /\ ids_within hi (users (step r o)))
        as [Hs' Hw'].
      { destruct o as [user|i data|i]; [done| |]; simpl.
        - split; [unfold ascending; by rewrite update_ids|].
          by apply update_ids_within.
        - split; [|by apply delete_ids_within].
          unfold ascending. destruct (delete_ids i r) as [k [-> | ->]]; [|done].
          by apply StronglySorted_delete. }
      apply (IH _ hi); [done|lia|done|done].
  - assert (creates (o :: os) = S (creates os)) as Hcs by (by destruct o).
    assert (creates [o] = 1%nat) as Hone by (by destruct o).
    destruct (step_ascending r o hi Ho) as [Hs' Hw']; [lia|done|done|].
    rewrite Hone in Hw'. apply (IH _ (hi + 1)); [lia|lia|done|done].
Qed.

(** X7: while no [update] supplies an id, the ids keep growing along the
    collection, and so stay distinct, through any run of operations that
    starts from ids that are integers from -2^53 to some [hi] and creates
    at most 2^53 - [hi] records (so that every new id is the exact
    successor of the last one); the collection [init] seeds when there is
    no file starts that way, with ids from 1 to 3. *)
Theorem run_keeps_ids_ascending (os : list operation) (r : UserRepository) :
  (forall hi : Z,
     ascending (users r) -> Forall no_id os ->
     0 <= hi -> ids_within hi (users r) ->
     hi + Z.of_nat (creates os) <= two53 ->
     ascending (users (run os r)) /\ NoDup (ids (users (run os r)))) /\
  (forall c1 c2 c3 r0,
     file r = None -> init c1 c2 c3 r = Some r0 ->
     ascending (users r0) /\ ids_within 3 (users r0)).
Proof.
  split.
  - intros hi Hs Hos Hhi Hw Hroom.
    assert (ascending (users (run os r))) as Hrun
      by (by apply (run_ascending os r hi)).
    split; [done|by apply ascending_NoDup].
  - intros c1 c2 c3 r0 Hf. unfold init. rewrite Hf. intros [= <-].
    split; [apply seed_ascending|].
    repeat constructor; eexists; (split; [reflexivity|unfold two53; lia]).
Qed.

Lemma run_keeps_ids_ascending_witness :
  ascending (users Sample.seeded) /\
  Forall no_id [Create Sample.ana; Delete 2; Update 1 (Sample.rename "Rui");
                Create Sample.ana] /\
  ids_within 3 (users Sample.seeded) /\
  NoDup (ids (users (run [Create Sample.ana; Delete 2;
                          Update 1 (Sample.rename "Rui"); Create Sample.ana]
                       Sample.seeded))).
Proof.
  assert (ascending (users Sample.seeded)) as Hs by apply seed_ascending.
  assert (Forall no_id [Create Sample.ana; Delete 2;
                        Update 1 (Sample.rename "Rui"); Create Sample.ana])
    as Hos by (repeat constructor).
  assert (ids_within 3 (users Sample.seeded)) as Hw.
  { repeat constructor; eexists; (split; [reflexivity|unfold two53; lia]). }
  split; [exact Hs|]. split; [exact Hos|]. split; [exact Hw|].
  refine (proj2 (proj1 (run_keeps_ids_ascending _ Sample.seeded) 3
                   Hs Hos _ Hw _)).
  - lia.
  - simpl. unfold two53. lia.
Defined.

(** X8: [init] writes the file only when it seeds: loading a file writes
    nothing and leaves the file as it is; and once [init] has run, a later
    start loads the very same repository, whatever tax ids [fake()] would
    give then, so the seed is made at most once. *)
Theorem init_seeds_once (c1 c2 c3 c1' c2' c3' : string)
    (r r0 : UserRepository) :
  init c1 c2 c3 r = Some r0 ->
  (file r = None ->
     users r0 = seed c1 c2 c3 /\ writes r0 = S (writes r)) /\
  (is_Some (file r) -> file r0 = file r /\ writes r0 = writes r) /\
  init c1' c2' c3' (restart r0) = Some r0.
Proof.
  intros Hi. split_and!.
  - intros Hf. unfold init in Hi. rewrite Hf in Hi. by injection Hi as <-.
  - intros [data Hf]. unfold init in Hi. rewrite Hf in Hi.
    destruct (asIClients data); [|done]. by injection Hi as <-.
  - pose proof (init_persisted _ _ _ _ _ Hi) as Hp.
    unfold persisted in Hp. unfold init. simpl.
    destruct (file r0) as [data|] eqn:Hf; [|done]. simpl in Hp.
    rewrite Hp. simpl. unfold set_users, restart. simpl.
    destruct r0; simpl in *. by rewrite Hf.
Qed.

Lemma init_seeds_once_witness :
  init "52998224725" "52998224725" "52998224725"
    {| users := []; file := None; writes := 0 |} = Some Sample.seeded /\
  init "" "" "" (restart Sample.seeded) = Some Sample.seeded.
Proof.
  split; [reflexivity|].
  exact (proj2 (proj2 (init_seeds_once
                         "52998224725" "52998224725" "52998224725" "" "" ""
                         {| users := []; file := None; writes := 0 |}
                         Sample.seeded eq_refl))).
Defined.

Lemma create_getById_new user r :
  ascending (users r) -> safe (last_id (users r)) ->
  getById (id (create user r).1) (create user r).2 = Some (create user r).1.
Proof.
  intros Hs Hsafe. unfold getById. simpl. rewrite findIndex_app_r.
  - rewrite findIndex_cons. simpl. by case_decide.
  - apply findIndex_None. intros u Hu Hid.
    pose proof (ascending_lt_next _ _ Hs Hsafe Hu) as Hlt.
    rewrite Hid in Hlt. by apply num_lt_irrefl in Hlt.
Qed.

Lemma update_getById_same i data r u :
  getById i r = Some u -> Partial.id data = None ->
  getById i (update i data r).2 = Some (merge u data).
Proof.
  intros [k Hk]%getById_Some Hd.
  pose proof (findIndex_Some _ _ _ _ Hk) as (Hu & _).
  pose proof (update_found i data r k u Hk) as [_ Hus].
  unfold getById.
  rewrite findIndex_lookup, (findIndex_same_ids i _ (users r)), Hk, Hus.
  - simpl. apply list_lookup_insert_eq. by eapply lookup_lt_Some.
  - by apply update_ids.
Qed.

Lemma update_None_unchanged i data r :
  (update i data r).1 = None -> (update i data r).2 = r.
Proof.
  unfold update. destruct (findIndex i (users r)) as [[k u]|] eqn:E; [|done].
  simpl. rewrite list_lookup_insert_eq; [done|].
  apply findIndex_Some in E as (Hu & _). by eapply lookup_lt_Some.
Qed.

Lemma delete_None_unchanged i r :
  (delete i r).1 = None -> (delete i r).2 = r.
Proof.
  unfold delete. destruct (findIndex i (users r)) as [[k u]|] eqn:E; [|done].
  simpl. apply findIndex_Some in E as (Hu & _). by rewrite Hu.
Qed.

(** The properties of what is written of a record. *)
Lemma prop_toJSON f u : prop (key f) (toJSON u) = written <$> get f u.
Proof.
  destruct u as [i e n c [r|] z [s|] [b|] [t|] [a|]]; by destruct f.
Qed.

Lemma toJSON_id u : finite (id u) -> num_prop "id" (toJSON u) = Some (id u).
Proof. destruct u as [[i| |]]; by simpl. Qed.

Lemma existsb_eqb_elem_of k (ks : list string) :
  existsb (String.eqb k) ks = true -> k ∈ ks.
Proof.
  induction ks as [|k' ks IH]; simpl; [done|].
  intros [Hk%String.eqb_eq|Hk]%orb_true_iff; [subst; left|right; auto].
Qed.

(** A property of a body with [client_keys] is a property of [IClient]. *)
Lemma client_keys_prop reqBody k v :
  client_keys reqBody = true -> prop k reqBody = Some v -> exists f, k = key f.
Proof.
  destruct reqBody as [| | | | |ps]; try done. unfold client_keys, prop.
  induction ps as [|[k' v'] ps IH]; [done|].
  cbn [forallb lookup_prop fst]. intros [Hk Hps]%andb_true_iff.
  destruct (String.eqb k k') eqn:E; [|by apply IH].
  apply String.eqb_eq in E as ->. intros _.
  apply existsb_eqb_elem_of, list_elem_of_fmap in Hk as (f & -> & _). by exists f.
Qed.

Lemma asPartial_finite_op i reqBody :
  finite_id reqBody = true -> finite_op (Update i (asPartial reqBody)).
Proof.
  unfold finite_id. simpl. unfold num_prop.
  by destruct (prop "id" reqBody) as [[| |[]| | |]|].
Qed.

(** * Further properties of the validation pipeline and of the routes *)

Section Application.
Context `{Libs}.

Lemma at_param_Some {A} p (q : number -> UserRepository -> option A) r a :
  at_param p q r = Some a -> exists i, p = Some i /\ q i r = Some a.
Proof. destruct p as [i|]; [|done]. simpl. eauto. Qed.

Lemma at_param_None_update p data r :
  at_param p getById r = None ->
  at_param_call p (fun i => update i data) r = (None, r).
Proof.
  destruct p as [i|]; [|done]. simpl. intros Hn%fmap_None.
  unfold update. by rewrite Hn.
Qed.

Lemma at_param_None_delete p r :
  at_param p getById r = None -> at_param_call p delete r = (None, r).
Proof.
  destruct p as [i|]; [|done]. simpl. intros Hn%fmap_None.
  unfold delete. by rewrite Hn.
Qed.

Lemma app_validated schema reqBody (h : Handler Response) r :
  issues schema reqBody = [] ->
  serve (let* _ := validateBody schema reqBody in h) r = serve h r.
Proof. intros Hi. unfold serve, bind. by rewrite (validateBody_valid _ _ _ Hi). Qed.

(** X9: a request for an id no record has (or for a parameter that is not
    a number) is answered 404 with [{status: "error", message: "Usuário não
    encontrado"}] by every route with an [:id], PUT provided its body
    passes the schema, and the repository is left as it was. *)
Theorem missing_record_404 (p : option number) (reqBody : json) (r : UserRepository) :
  at_param p getById r = None ->
  app (GET_users_id p) r = (not_found, r) /\
  app (GET_users_isCPF p) r = (not_found, r) /\
  app (GET_users_isCEP p) r = (not_found, r) /\
  app (DELETE_users_id p) r = (not_found, r) /\
  (issues updateUserSchema reqBody = [] ->
     app (PUT_users_id p reqBody) r = (not_found, r)) /\
  status not_found = 404 /\
  body not_found = error_body "Usuário não encontrado".
Proof.
  intros Hn. unfold app, handler. split_and!; try done.
  - unfold serve, get_users_id, bind, read. by rewrite Hn.
  - unfold serve, get_users_isCPF, bind, read. by rewrite Hn.
  - unfold serve, get_users_isCEP, bind, read. by rewrite Hn.
  - unfold serve, delete_users_id, bind, call.
    by rewrite (at_param_None_delete _ _ Hn).
  - intros Hi. unfold put_users_id. rewrite (app_validated _ _ _ _ Hi).
    unfold serve, bind, call.
    by rewrite (at_param_None_update _ _ _ Hn).
Qed.

(** What a body that passes [createUserSchema] holds: the typed view
    exists and has, property by property, what the body has. *)
Lemma issues_create_view reqBody :
  issues createUserSchema reqBody = [] ->
  exists user,
    asOmit reqBody = Some user /\
    forall r f, f <> f_id -> get f (create user r).1 = prop (key f) reqBody.
Proof.
  destruct reqBody as [| | | | |ps]; try done.
  unfold issues, createUserSchema.
  cbn [flat_map]. unfold prop.
  intros Hi.
  repeat (apply app_eq_nil in Hi as [?Hp Hi]).
  repeat match goal with
         | Hp : parse_property _ (required _) _ = [] |- _ =>
             apply parse_required_nil in Hp as [? Hp]
         | Hp : parse_property _ (optional _) _ = [] |- _ =>
             apply parse_optional_nil in Hp as [Hp | [? Hp]]
         end;
    (eexists; split;
     [ unfold asOmit, str_prop, opt_str_prop, prop;
       repeat match goal with
              | Hp : lookup_prop _ _ = _ |- _ => rewrite Hp; clear Hp
              end; reflexivity
     | intros r f Hf; destruct f; try done; simpl; by symmetry ]).
Qed.

(** X10: POST /users with a body that passes the schema and holds
    properties of [IClient] only creates a record and answers 201 with it.
    The id of the record is the one the repository gives, the last id plus
    one as doubles add, whatever [id] the body has; every other property
    of the record is a property of the body, with the value the body has,
    and every property of the body but [id] is a property of the record
    and of the answer. *)
Theorem post_creates (reqBody : json) (r : UserRepository) :
  issues createUserSchema reqBody = [] ->
  client_keys reqBody = true ->
  exists user,
    asOmit reqBody = Some user /\
    app (POST_users reqBody) r
      = ({| status := 201; body := toJSON (create user r).1 |},
         (create user r).2) /\
    id (create user r).1 = add_one (last_id (users r)) /\
    (forall f, f <> f_id -> get f (create user r).1 = prop (key f) reqBody) /\
    (forall k v, prop k reqBody = Some v -> k <> "id" ->
       exists f, k = key f /\ get f (create user r).1 = Some v /\
                 prop k (body (app (POST_users reqBody) r).1) = Some v).
Proof.
  intros Hi Hkeys. destruct (issues_create_view _ Hi) as (user & Hu & Hget).
  assert (app (POST_users reqBody) r
          = ({| status := 201; body := toJSON (create user r).1 |},
             (create user r).2)) as Happ.
  { unfold app, handler, post_users. by rewrite (app_validated _ _ _ _ Hi), Hu. }
  exists user. split_and!; try done; [by apply Hget|].
  intros k v Hk Hid.
  destruct (client_keys_prop _ _ _ Hkeys Hk) as [f ->].
  assert (f <> f_id) as Hf by (by intros ->).
  exists f. rewrite Happ. cbn [fst body].
  rewrite prop_toJSON, (Hget r f Hf), Hk. split_and!; try done.
  pose proof (Hget r f Hf) as Hg. rewrite Hk in Hg.
  assert (exists s, v = JStr s) as [s ->]; [|done].
  destruct f; try done; simpl in Hg;
    first [ injection Hg as <-; by eexists
          | match type of Hg with
            | _ <$> ?o = _ =>
                destruct o; simpl in Hg; [injection Hg as <-; by eexists|done]
            end ].
Qed.

(** X11: where the ids grow along the collection and the last id is an
    integer from -2^53 to 2^53 - 1, the record POST /users answers with is
    then found by GET /users/:id under the id of the answer, with the same
    body. *)
Theorem post_then_get (reqBody : json) (r : UserRepository) :
  ascending (users r) ->
  safe (last_id (users r)) ->
  issues createUserSchema reqBody = [] ->
  exists i,
    num_prop "id" (body (app (POST_users reqBody) r).1) = Some i /\
    app (GET_users_id (Some i)) (app (POST_users reqBody) r).2
      = ({| status := 200; body := body (app (POST_users reqBody) r).1 |},
         (app (POST_users reqBody) r).2).
Proof.
  intros Hs Hsafe Hi. destruct (issues_create_view _ Hi) as (user & Hu & _).
  assert (app (POST_users reqBody) r
          = ({| status := 201; body := toJSON (create user r).1 |},
             (create user r).2)) as ->.
  { unfold app, handler, post_users. by rewrite (app_validated _ _ _ _ Hi), Hu. }
  cbn [fst snd body].
  exists (id (create user r).1). split.
  - apply toJSON_id. simpl.
    by destruct (add_one_safe _ Hsafe) as (n & _ & ->).
  - unfold app, handler, serve, get_users_id, bind, read, at_param.
    by rewrite (create_getById_new user r Hs Hsafe).
Qed.

(** What a body that passes [updateUserSchema] supplies: property by
    property, what the body has. *)
Lemma issues_update_view reqBody f :
  issues updateUserSchema reqBody = [] -> f <> f_id ->
  supplied f (asPartial reqBody) = prop (key f) reqBody.
Proof.
  destruct reqBody as [| | | | |ps]; try done.
  unfold issues, updateUserSchema, createUserSchema, partial.
  cbn [fmap list_fmap flat_map]. unfold prop.
  intros Hi Hf.
  repeat (apply app_eq_nil in Hi as [?Hp Hi]).
  repeat match goal with
         | Hp : parse_property _ _ _ = [] |- _ =>
             apply parse_optional_nil in Hp as [Hp | [? Hp]]
         end;
    destruct f; try done; simpl; unfold str_prop, prop;
    repeat match goal with
           | Hp : lookup_prop _ _ = _ |- _ => rewrite Hp; clear Hp
           end; reflexivity.
Qed.

(** X12: PUT /users/:id with a body that passes the schema, holds
    properties of [IClient] only and has no [id], for an id that has a
    record, answers 200 with the record merged with the body: a property
    of the body has the value of the body, every other property the value
    it had; every property of the body is a property of the answer.  GET
    /users/:id then answers with the same record. *)
Theorem put_then_get (i : number) (reqBody : json) (r : UserRepository) (u : IClient) :
  issues updateUserSchema reqBody = [] ->
  client_keys reqBody = true ->
  prop "id" reqBody = None ->
  getById i r = Some u ->
  app (PUT_users_id (Some i) reqBody) r
    = ({| status := 200; body := toJSON (merge u (asPartial reqBody)) |},
       (update i (asPartial reqBody) r).2) /\
  app (GET_users_id (Some i)) (update i (asPartial reqBody) r).2
    = ({| status := 200; body := toJSON (merge u (asPartial reqBody)) |},
       (update i (asPartial reqBody) r).2) /\
  (forall f, get f (merge u (asPartial reqBody))
             = from_option Some (get f u) (prop (key f) reqBody)) /\
  (forall k v, prop k reqBody = Some v ->
     prop k (body (app (PUT_users_id (Some i) reqBody) r).1) = Some v).
Proof.
  intros Hi Hkeys Hid Hu.
  assert (Partial.id (asPartial reqBody) = None) as Hd.
  { simpl. unfold num_prop. by rewrite Hid. }
  assert (forall f, get f (merge u (asPartial reqBody))
                    = from_option Some (get f u) (prop (key f) reqBody)) as Hget.
  { intros f. rewrite merge_get.
    destruct f; try (by rewrite issues_update_view).
    simpl. unfold num_prop. by rewrite Hid. }
  assert (app (PUT_users_id (Some i) reqBody) r
          = ({| status := 200; body := toJSON (merge u (asPartial reqBody)) |},
             (update i (asPartial reqBody) r).2)) as Happ.
  { unfold app, handler, put_users_id. rewrite (app_validated _ _ _ _ Hi).
    pose proof Hu as [k Hk]%getById_Some.
    pose proof (update_found i (asPartial reqBody) r k u Hk) as [Hret _].
    unfold serve, bind, call, at_param_call.
    destruct (update i (asPartial reqBody) r) as [res r']. simpl in *.
    by rewrite Hret. }
  split_and!; [done| |done|].
  - unfold app, handler, serve, get_users_id, bind, read, at_param.
    by rewrite (update_getById_same i _ r u Hu Hd).
  - intros k v Hk. rewrite Happ. cbn [fst body].
    destruct (client_keys_prop _ _ _ Hkeys Hk) as [f ->].
    rewrite prop_toJSON, Hget, Hk. simpl.
    assert (f <> f_id) as Hf by (intros ->; simpl in Hk; congruence).
    pose proof (issues_update_view reqBody f Hi Hf) as Hs. rewrite Hk in Hs.
    destruct f; try done; simpl in Hs;
      match goal with
      | Hs : _ <$> ?o = Some _ |- _ => destruct o; simpl in Hs
      end; by simplify_eq.
Qed.

(** X13: DELETE /users/:id for an id that has a record answers 200 with
    that record; where the ids are distinct, GET /users/:id then answers
    404. *)
Theorem delete_then_get (i : number) (r : UserRepository) (u : IClient) :
  getById i r = Some u ->
  app (DELETE_users_id (Some i)) r
    = ({| status := 200; body := toJSON u |}, (delete i r).2) /\
  (NoDup (ids (users r)) ->
     app (GET_users_id (Some i)) (delete i r).2 = (not_found, (delete i r).2)).
Proof.
  intros [k Hk]%getById_Some.
  pose proof (delete_found i r k u Hk) as [Hret Hus].
  split.
  - unfold app, handler, serve, delete_users_id, bind, call, at_param_call.
    destruct (delete i r) as [res r']. simpl in *. by rewrite Hret.
  - intros Hnd.
    unfold app, handler, serve, get_users_id, bind, read, at_param, getById.
    by rewrite Hus, (findIndex_delete_same i _ k u Hnd Hk).
Qed.

Lemma step_writes r o :
  (writes r <= writes (step r o) <= S (writes r))%nat.
Proof.
  destruct o as [user|i data|i]; simpl; [lia| |].
  - unfold update. destruct (findIndex i (users r)) as [[k u]|]; simpl; lia.
  - unfold delete. destruct (findIndex i (users r)) as [[k u]|]; simpl; lia.
Qed.

(** A request acts on the repository as no operation or as one, which
    supplies no infinite id when the request is a [typed_request]. *)
Lemma app_acts_as_step q r :
  (app q r).2 = r \/
  exists o, (app q r).2 = step r o /\ (typed_request q = true -> finite_op o).
Proof.
  destruct q as [p|p| |p|reqBody|p reqBody|p]; unfold app, handler.
  - left. unfold serve, get_users_isCPF, bind, read.
    by destruct (at_param p getById r).
  - left. unfold serve, get_users_isCEP, bind, read.
    destruct (at_param p getById r) as [u|]; [|done].
    by destruct (cep_promise (cep u)).
  - by left.
  - left. unfold serve, get_users_id, bind, read.
    by destruct (at_param p getById r).
  - unfold serve, post_users, bind, validateBody.
    destruct (issues createUserSchema reqBody); [|by left].
    simpl. destruct (asOmit reqBody) as [user|]; [|by left].
    right. by exists (Create user).
  - unfold serve, put_users_id, bind, validateBody.
    destruct (issues updateUserSchema reqBody); [|by left].
    destruct p as [i|]; [|by left]. right. exists (Update i (asPartial reqBody)).
    split.
    + unfold ret, call, at_param_call. simpl.
      by destruct (update i (asPartial reqBody) r) as [[u|] r'].
    + unfold typed_request. intros [_ Hid]%andb_true_iff.
      by apply asPartial_finite_op.
  - unfold serve, delete_users_id, bind.
    destruct p as [i|]; [|by left]. right. exists (Delete i).
    split; [|done]. unfold call, at_param_call. simpl.
    by destruct (delete i r) as [[u|] r'].
Qed.

(** X14: every answer has status 200, 201, 400, 404 or 500.  An answer
    with another status than 200 and 201 has a body of the form
    [{status: "error", message}] and its request leaves the repository as
    it was; so does every GET request. *)
Theorem error_answers_change_nothing (q : request) (r : UserRepository) :
  (status (app q r).1 = 200 \/ status (app q r).1 = 201 \/
   status (app q r).1 = 400 \/ status (app q r).1 = 404 \/
   status (app q r).1 = 500) /\
  (status (app q r).1 <> 200 -> status (app q r).1 <> 201 ->
     (app q r).2 = r /\ exists m, body (app q r).1 = error_body m) /\
  (is_GET q = true -> (app q r).2 = r).
Proof.
  destruct q as [p|p| |p|reqBody|p reqBody|p]; unfold app, handler.
  - unfold serve, get_users_isCPF, bind, read.
    destruct (at_param p getById r); simpl; split_and!; eauto; try lia.
  - unfold serve, get_users_isCEP, bind, read.
    destruct (at_param p getById r) as [u|]; simpl;
      [destruct (cep_promise (cep u))|]; simpl; split_and!; eauto; try lia.
  - simpl. split_and!; eauto; try lia.
  - unfold serve, get_users_id, bind, read.
    destruct (at_param p getById r); simpl; split_and!; eauto; try lia.
  - unfold serve, post_users, bind, validateBody.
    destruct (issues createUserSchema reqBody); simpl;
      [destruct (asOmit reqBody)|]; simpl; split_and!; eauto; try lia; done.
  - unfold serve, put_users_id, bind, validateBody.
    destruct (issues updateUserSchema reqBody); simpl;
      [|split_and!; eauto; try lia; done].
    unfold call, at_param_call. destruct p as [i|]; simpl;
      [|split_and!; eauto; try lia; done].
    pose proof (update_None_unchanged i (asPartial reqBody) r) as Hn.
    destruct (update i (asPartial reqBody) r) as [[u|] r']; simpl in *;
      split_and!; eauto; try lia; try done;
      intros _ _; rewrite Hn by done; eauto.
  - unfold serve, delete_users_id, bind, call, at_param_call.
    destruct p as [i|]; simpl; [|split_and!; eauto; try lia; done].
    pose proof (delete_None_unchanged i r) as Hn.
    destruct (delete i r) as [[u|] r']; simpl in *;
      split_and!; eauto; try lia; try done;
      intros _ _; rewrite Hn by done; eauto.
Qed.

(** X15: a request whose body, if it has one, holds properties of
    [IClient] only, with an [id] that is absent or a finite number, acts on
    the repository as no operation or as one of [create], [update],
    [delete] that supplies no infinite id.  Through any sequence of such
    requests, on a collection whose ids are finite numbers, the ids stay
    finite and the file keeps holding the collection.  The file is written
    at most once a request. *)
Theorem requests_keep_file_in_step (qs : list request) (r : UserRepository) :
  (forall q, typed_request q = true ->
     (app q r).2 = r \/
     exists o, finite_op o /\ (app q r).2 = step r o) /\
  (Forall (fun q => typed_request q = true) qs -> finite_ids (users r) ->
     finite_ids (users (requests qs r)) /\
     (persisted r -> persisted (requests qs r))) /\
  (writes (requests qs r) <= writes r + length qs)%nat.
Proof.
  split.
  { intros q Hq. destruct (app_acts_as_step q r) as [Hr | (o & Ho & Hfo)];
      [by left|]. right. exists o. split; [by apply Hfo|done]. }
  unfold requests. revert r. induction qs as [|q qs IH]; intros r.
  - simpl. split; [done|lia].
  - simpl. destruct (IH (app q r).2) as [IHp IHw].
    destruct (app_acts_as_step q r) as [Hq | (o & Hq & Hfo)]; rewrite Hq in *.
    + split; [|lia]. intros [_ Hqs]%Forall_cons Hf. by apply IHp.
    + split; [|pose proof (step_writes r o); lia].
      intros [Hty Hqs]%Forall_cons Hf.
      destruct (IHp Hqs (step_finite_ids r o Hf (Hfo Hty))) as [Hf' Hp'].
      split; [done|]. intros Hp. by apply Hp', step_persisted; auto.
Qed.

(** X16: GET /users answers 200 with the whole collection in its order,
    and GET /users/:id answers 200 with the record found, each record as
    [JSON.stringify] writes it.  Read back at type [IClient], the bodies
    are the collection, where its ids are finite numbers, and the record,
    when its id is one; a record with an infinite id is answered with the
    id [null] and does not read back. *)
Theorem get_answers_decode (r : UserRepository) :
  app GET_users r
    = ({| status := 200; body := JArr (toJSON <$> users r) |}, r) /\
  (finite_ids (users r) ->
     asIClients (body (app GET_users r).1) = Some (users r)) /\
  (forall p u, at_param p getById r = Some u ->
     app (GET_users_id p) r = ({| status := 200; body := toJSON u |}, r) /\
     (finite (id u) ->
        asIClient (body (app (GET_users_id p) r).1) = Some u) /\
     (~ finite (id u) ->
        prop "id" (body (app (GET_users_id p) r).1) = Some JNull /\
        asIClient (body (app (GET_users_id p) r).1) = None)).
Proof.
  split_and!; [done|apply asIClients_toJSON|].
  intros p u Hu. unfold app, handler, serve, get_users_id, bind, read.
  rewrite Hu. simpl. split_and!; [done|apply asIClient_toJSON|].
  intros Hinf. split; [|by apply asIClient_toJSON_infinite].
  destruct u as [[i| |]]; simpl in *; done.
Qed.

(** X17: GET /users/isCPF/:id, for a record found, answers 200 and says
    "cpf válido" exactly when [isCPF] accepts the stored tax id.  GET
    /users/isCEP/:id answers 200, with the stored postal code and the
    address, exactly when the record is found and the lookup resolves. *)
Theorem validation_routes_outcomes (p : option number) (r : UserRepository) :
  (forall u, at_param p getById r = Some u ->
     status (app (GET_users_isCPF p) r).1 = 200 /\
     (prop "message" (body (app (GET_users_isCPF p) r).1)
        = Some (JStr "cpf válido") <-> isCPF (cpf u) = true)) /\
  (status (app (GET_users_isCEP p) r).1 = 200 <->
     exists u a, at_param p getById r = Some u /\
                 cep_promise (cep u) = Resolved a) /\
  (forall u a, at_param p getById r = Some u ->
     cep_promise (cep u) = Resolved a ->
     body (app (GET_users_isCEP p) r).1
       = JObj [("message", JStr "User's CEP is valid.");
               ("cep", JStr (cep u)); ("address", a)]).
Proof.
  unfold app, handler. split_and!.
  - intros u Hu. unfold serve, get_users_isCPF, bind, read. rewrite Hu.
    simpl. split; [done|]. by destruct (isCPF (cpf u)).
  - unfold serve, get_users_isCEP, bind, read.
    destruct (at_param p getById r) as [u|]; simpl.
    + destruct (cep_promise (cep u)) as [a|m] eqn:E; simpl.
      * split; [eauto|done].
      * split; [done|]. intros (u' & a & [= <-] & Ha). congruence.
    + split; [done|]. by intros (u & a & ? & _).
  - intros u a Hu Ha. unfold serve, get_users_isCEP, bind, read.
    by rewrite Hu, Ha.
Qed.


(** ** The schemas *)

Set Warnings "-clear-no-such-hyp".

Lemma parse_property_optional_sublist k zs v :
  parse_property k (optional zs) v `sublist_of` parse_property k zs v.
Proof.
  destruct v as [[]|]; simpl; try done. apply sublist_nil_l.
Qed.

(** X18: [.partial()] only removes issues: the issues of a body under
    [schema.partial()] are among its issues under [schema], in the same
    order; so a body that POST /users accepts is accepted by PUT
    /users/:id. *)
Theorem partial_accepts_more (schema : ZodObject) (reqBody : json) :
  issues (partial schema) reqBody `sublist_of` issues schema reqBody /\
  (issues schema reqBody = [] -> issues (partial schema) reqBody = []) /\
  (issues createUserSchema reqBody = [] -> issues updateUserSchema reqBody = []).
Proof.
  assert (forall sch, issues (partial sch) reqBody
                        `sublist_of` issues sch reqBody) as Hsub.
  { intros sch. destruct reqBody as [| | | | |ps]; try done.
    unfold issues, partial.
    induction sch as [|[k zs] sch IH]; [done|].
    rewrite fmap_cons. cbn [flat_map].
    apply sublist_app; [apply parse_property_optional_sublist|apply IH]. }
  split_and!; [apply Hsub| |].
  - intros Hi. specialize (Hsub schema). rewrite Hi in Hsub.
    by apply sublist_nil_r.
  - intros Hi. specialize (Hsub createUserSchema). rewrite Hi in Hsub.
    by apply sublist_nil_r.
Qed.

Lemma lookup_prop_app_other k' k v ps1 ps2 :
  k' <> k ->
  lookup_prop k' (ps1 ++ (k, v) :: ps2) = lookup_prop k' (ps1 ++ ps2).
Proof.
  intros Hk. induction ps1 as [|[k1 v1] ps1 IH]; simpl.
  - by rewrite (proj2 (String.eqb_neq k' k) Hk).
  - by rewrite IH.
Qed.

(** X19: a property whose key is not in the shape of the schema does not
    count: with it or without it the body has the same issues.  [id] is
    such a property for both schemas, so a body is accepted as well with
    an [id] of any value. *)
Theorem unknown_property_ignored (schema : ZodObject) (k : string) (v : json)
    (ps1 ps2 : list (string * json)) :
  (k ∉ shape_keys schema ->
     issues schema (JObj (ps1 ++ (k, v) :: ps2)) = issues schema (JObj (ps1 ++ ps2))) /\
  ("id" ∉ shape_keys createUserSchema) /\
  ("id" ∉ shape_keys updateUserSchema).
Proof.
  split_and!.
  - unfold issues, shape_keys, prop.
    induction schema as [|[k' zs] schema IH]; [done|].
    rewrite fmap_cons, not_elem_of_cons. intros [Hk Hks].
    cbn [flat_map]. rewrite (IH Hks), lookup_prop_app_other; [done|].
    intros ->. by apply Hk.
  - unfold shape_keys. simpl. rewrite !elem_of_cons, elem_of_nil.
    intros Hk. repeat destruct Hk as [Hk|Hk]; done.
  - unfold shape_keys. simpl. rewrite !elem_of_cons, elem_of_nil.
    intros Hk. repeat destruct Hk as [Hk|Hk]; done.
Qed.

Lemma check_messages_nil k (cs : list check) :
  (fun c => {| path := [k]; message := Message (check_message c) |}) <$> cs = []
  <-> cs = [].
Proof. by destruct cs. Qed.

Lemma failed_checks_nil (cs : list check) s :
  filter (fun c => check_ok c s = false) cs = []
  <-> Forall (fun c => check_ok c s = true) cs.
Proof.
  induction cs as [|c cs IH]; [done|].
  rewrite filter_cons, Forall_cons, <- IH.
  destruct (check_ok c s); case_decide; naive_solver.
Qed.

(** When a property raises no issue. *)
Lemma parse_property_nil k zs v :
  parse_property k zs v = [] <->
  (v = None /\ isOptional zs = true) \/
  exists s, v = Some (JStr s) /\ Forall (fun c => check_ok c s = true) (checks zs).
Proof.
  destruct v as [[]|]; simpl;
    try (split; [done|intros [[? _]|(? & ? & _)]; done]).
  - rewrite check_messages_nil, failed_checks_nil. naive_solver.
  - destruct (isOptional zs); naive_solver.
Qed.

Lemma flat_map_nil {A B} (f : A -> list B) l :
  flat_map f l = [] <-> Forall (fun x => f x = []) l.
Proof.
  induction l as [|x l IH]; simpl; [done|].
  rewrite Forall_cons, <- IH. split; [apply app_eq_nil|by intros [-> ->]].
Qed.

(** When a body raises no issue, for any schema. *)
Lemma issues_nil schema reqBody :
  issues schema reqBody = [] <->
  exists ps, reqBody = JObj ps /\
    Forall (fun kz =>
              (lookup_prop kz.1 ps = None /\ isOptional kz.2 = true) \/
              exists s, lookup_prop kz.1 ps = Some (JStr s) /\
                        Forall (fun c => check_ok c s = true) (checks kz.2))
           schema.
Proof.
  destruct reqBody as [| | | | |ps];
    try (split; [done|by intros (? & ? & _)]).
  unfold issues. rewrite flat_map_nil. split.
  - intros Hf. exists ps. split; [done|].
    eapply Forall_impl; [exact Hf|]. intros [k zs]. simpl.
    by rewrite parse_property_nil.
  - intros (ps' & [= <-] & Hf).
    eapply Forall_impl; [exact Hf|]. intros [k zs]. simpl.
    by rewrite parse_property_nil.
Qed.

Lemma check_ok_Min n m s :
  check_ok (Min n m) s = true <-> (n <= String.length s)%nat.
Proof. apply Nat.leb_le. Qed.

Lemma check_ok_Length n m s :
  check_ok (Length n m) s = true <-> String.length s = n.
Proof. apply Nat.eqb_eq. Qed.

Lemma check_ok_Email m s : check_ok (Email m) s = isEmail s.
Proof. reflexivity. Qed.

Lemma check_ok_Refine p m s : check_ok (Refine p m) s = p s.
Proof. reflexivity. Qed.

Lemma required_property (v : option json) (c : check) :
  ((v = None /\ false = true) \/
   exists s, v = Some (JStr s) /\ Forall (fun c => check_ok c s = true) [c])
  <-> exists s, v = Some (JStr s) /\ check_ok c s = true.
Proof. setoid_rewrite Forall_cons. setoid_rewrite Forall_nil. naive_solver. Qed.

Lemma optional_property (v : option json) (c : check) :
  ((v = None /\ true = true) \/
   exists s, v = Some (JStr s) /\ Forall (fun c => check_ok c s = true) [c])
  <-> v = None \/ exists s, v = Some (JStr s) /\ check_ok c s = true.
Proof. setoid_rewrite Forall_cons. setoid_rewrite Forall_nil. naive_solver. Qed.

Lemma optional_string (v : option json) :
  ((v = None /\ true = true) \/
   exists s, v = Some (JStr s) /\ Forall (fun c => check_ok c s = true) [])
  <-> v = None \/ exists s, v = Some (JStr s).
Proof. setoid_rewrite Forall_nil. naive_solver. Qed.

Local Arguments check_ok : simpl never.

(** X20: the bodies POST /users accepts.  A body passes [createUserSchema]
    exactly when it is an object whose [name] is a string of at least 3
    characters, whose [email] is a string the e-mail pattern accepts, whose
    [cpf] is a string [isCPF] accepts, whose [cep] is a string of 8
    characters, and whose [rg], [street], [neighborhood], [city] and
    [state] are each absent or a string. *)
Theorem create_schema_accepts (reqBody : json) :
  issues createUserSchema reqBody = [] <->
  exists ps, reqBody = JObj ps /\
    (exists s, lookup_prop "name" ps = Some (JStr s) /\ (3 <= String.length s)%nat) /\
    (exists s, lookup_prop "email" ps = Some (JStr s) /\ isEmail s = true) /\
    (exists s, lookup_prop "cpf" ps = Some (JStr s) /\ isCPF s = true) /\
    (exists s, lookup_prop "cep" ps = Some (JStr s) /\ String.length s = 8%nat) /\
    Forall (fun k => lookup_prop k ps = None \/
                     exists s, lookup_prop k ps = Some (JStr s))
           ["rg"; "street"; "neighborhood"; "city"; "state"].
Proof.
  rewrite issues_nil. unfold createUserSchema.
  split; intros (ps & -> & Hf); exists ps; (split; [done|]);
    revert Hf; rewrite !Forall_cons, !Forall_nil; simpl;
    rewrite !required_property, !optional_string;
    setoid_rewrite check_ok_Min; setoid_rewrite check_ok_Length;
    setoid_rewrite check_ok_Email; setoid_rewrite check_ok_Refine;
    tauto.
Qed.

(** X21: the bodies PUT /users/:id accepts.  A body passes
    [updateUserSchema] exactly when it is an object in which each of
    [name], [email], [cpf], [cep] is absent or as POST /users wants it, and
    each of the other five properties is absent or a string; the empty
    object passes. *)
Theorem update_schema_accepts (reqBody : json) :
  (issues updateUserSchema reqBody = [] <->
   exists ps, reqBody = JObj ps /\
     (lookup_prop "name" ps = None \/
      exists s, lookup_prop "name" ps = Some (JStr s) /\ (3 <= String.length s)%nat) /\
     (lookup_prop "email" ps = None \/
      exists s, lookup_prop "email" ps = Some (JStr s) /\ isEmail s = true) /\
     (lookup_prop "cpf" ps = None \/
      exists s, lookup_prop "cpf" ps = Some (JStr s) /\ isCPF s = true) /\
     (lookup_prop "cep" ps = None \/
      exists s, lookup_prop "cep" ps = Some (JStr s) /\ String.length s = 8%nat) /\
     Forall (fun k => lookup_prop k ps = None \/
                      exists s, lookup_prop k ps = Some (JStr s))
            ["rg"; "street"; "neighborhood"; "city"; "state"]) /\
  issues updateUserSchema (JObj []) = [].
Proof.
  split; [|done].
  rewrite issues_nil. unfold updateUserSchema, createUserSchema.
  split; intros (ps & -> & Hf); exists ps; (split; [done|]);
    revert Hf; simpl; rewrite !Forall_cons, !Forall_nil; simpl;
    rewrite !optional_property, !optional_string;
    setoid_rewrite check_ok_Min; setoid_rewrite check_ok_Length;
    setoid_rewrite check_ok_Email; setoid_rewrite check_ok_Refine;
    tauto.
Qed.


End Application.

Lemma missing_record_404_witness :
  at_param (Some (Int 9)) getById Sample.seeded = None /\
  @app Sample.libs (GET_users_id (Some (Int 9))) Sample.seeded
    = (not_found, Sample.seeded) /\
  @app Sample.libs (DELETE_users_id (Some (Int 9))) Sample.seeded
    = (not_found, Sample.seeded).
Proof.
  split; [reflexivity|].
  destruct (@missing_record_404 Sample.libs (Some (Int 9)) (JObj []) Sample.seeded
              eq_refl) as (Hget & _ & _ & Hdel & _).
  split; [exact Hget|exact Hdel].
Defined.

Lemma post_creates_witness :
  @issues Sample.libs (@createUserSchema Sample.libs) Examples.valid_payload = [] /\
  client_keys Examples.valid_payload = true /\
  exists user,
    asOmit Examples.valid_payload = Some user /\
    @app Sample.libs (POST_users Examples.valid_payload) Sample.seeded
      = ({| status := 201; body := toJSON (create user Sample.seeded).1 |},
         (create user Sample.seeded).2).
Proof.
  split; [reflexivity|]. split; [reflexivity|].
  destruct (@post_creates Sample.libs Examples.valid_payload Sample.seeded
              eq_refl eq_refl) as (user & Hu & Happ & _).
  exists user. split; [exact Hu|exact Happ].
Defined.

Lemma post_then_get_witness :
  ascending (users Sample.seeded) /\
  safe (last_id (users Sample.seeded)) /\
  @issues Sample.libs (@createUserSchema Sample.libs) Examples.valid_payload = [] /\
  exists i,
    num_prop "id"
      (body (@app Sample.libs (POST_users Examples.valid_payload)
               Sample.seeded).1) = Some i /\
    @app Sample.libs (GET_users_id (Some i))
      (@app Sample.libs (POST_users Examples.valid_payload) Sample.seeded).2
    = ({| status := 200;
          body := body (@app Sample.libs (POST_users Examples.valid_payload)
                          Sample.seeded).1 |},
       (@app Sample.libs (POST_users Examples.valid_payload) Sample.seeded).2).
Proof.
  assert (ascending (users Sample.seeded)) as Hs by apply seed_ascending.
  assert (safe (last_id (users Sample.seeded))) as Hsafe.
  { simpl. unfold two53. lia. }
  split; [exact Hs|]. split; [exact Hsafe|]. split; [reflexivity|].
  exact (@post_then_get Sample.libs Examples.valid_payload Sample.seeded
           Hs Hsafe eq_refl).
Defined.

Lemma put_then_get_witness :
  @issues Sample.libs (@updateUserSchema Sample.libs) Examples.rename_body = [] /\
  client_keys Examples.rename_body = true /\
  prop "id" Examples.rename_body = None /\
  getById 2 Sample.seeded = users Sample.seeded !! 1%nat /\
  status (@app Sample.libs (PUT_users_id (Some (Int 2)) Examples.rename_body)
            Sample.seeded).1 = 200 /\
  str_prop "name"
    (body (@app Sample.libs (PUT_users_id (Some (Int 2)) Examples.rename_body)
             Sample.seeded).1) = Some "Maria Lima".
Proof.
  split; [reflexivity|]. split; [reflexivity|]. split; [reflexivity|].
  split; [reflexivity|].
  rewrite (proj1 (@put_then_get Sample.libs 2 Examples.rename_body
                    Sample.seeded _ eq_refl eq_refl eq_refl eq_refl)).
  split; reflexivity.
Defined.

Lemma delete_then_get_witness :
  getById 2 Sample.seeded = users Sample.seeded !! 1%nat /\
  NoDup (ids (users Sample.seeded)) /\
  @app Sample.libs (GET_users_id (Some (Int 2))) (delete 2 Sample.seeded).2
    = (not_found, (delete 2 Sample.seeded).2).
Proof.
  assert (NoDup (ids (users Sample.seeded))) as Hnd.
  { apply ascending_NoDup, seed_ascending. }
  split; [reflexivity|]. split; [exact Hnd|].
  exact (proj2 (@delete_then_get Sample.libs 2 Sample.seeded _ eq_refl) Hnd).
Defined.

Lemma requests_keep_file_in_step_witness :
  Forall (fun q => typed_request q = true)
    [POST_users Examples.valid_payload; DELETE_users_id (Some (Int 1));
     PUT_users_id (Some (Int 2)) Examples.rename_body; GET_users] /\
  finite_ids (users Sample.seeded) /\
  persisted Sample.seeded /\
  persisted (@requests Sample.libs
               [POST_users Examples.valid_payload; DELETE_users_id (Some (Int 1));
                PUT_users_id (Some (Int 2)) Examples.rename_body; GET_users]
               Sample.seeded).
Proof.
  assert (Forall (fun q => typed_request q = true)
            [POST_users Examples.valid_payload; DELETE_users_id (Some (Int 1));
             PUT_users_id (Some (Int 2)) Examples.rename_body; GET_users])
    as Hqs by (repeat constructor).
  assert (finite_ids (users Sample.seeded)) as Hf by (repeat constructor).
  assert (persisted Sample.seeded) as Hp by reflexivity.
  split; [exact Hqs|]. split; [exact Hf|]. split; [exact Hp|].
  exact (proj2 (proj1 (proj2 (@requests_keep_file_in_step Sample.libs _
                                Sample.seeded)) Hqs Hf) Hp).
Defined.

Lemma get_answers_decode_witness :
  finite_ids (users Sample.seeded) /\
  asIClients (body (@app Sample.libs GET_users Sample.seeded).1)
    = Some (users Sample.seeded) /\
  at_param (Some PosInf) getById Sample.unbounded
    = users Sample.unbounded !! 0%nat /\
  prop "id" (body (@app Sample.libs (GET_users_id (Some PosInf))
                     Sample.unbounded).1) = Some JNull.
Proof.
  assert (finite_ids (users Sample.seeded)) as Hf by (repeat constructor).
  split; [exact Hf|].
  destruct (@get_answers_decode Sample.libs Sample.seeded) as (_ & Hall & _).
  split; [exact (Hall Hf)|]. split; [reflexivity|].
  destruct (@get_answers_decode Sample.libs Sample.unbounded) as (_ & _ & Hone).
  destruct (Hone (Some PosInf) _ eq_refl) as (_ & _ & Hinf).
  refine (proj1 (Hinf _)). simpl. tauto.
Defined.

Lemma unknown_property_ignored_witness :
  ("id" ∉ shape_keys (@updateUserSchema Sample.libs)) /\
  @issues Sample.libs (@updateUserSchema Sample.libs)
    (JObj ([] ++ ("id", JNum 7) :: [("name", JStr "Maria Lima")]))
  = @issues Sample.libs (@updateUserSchema Sample.libs)
      (JObj ([] ++ [("name", JStr "Maria Lima")])).
Proof.
  pose proof (@unknown_property_ignored Sample.libs
                (@updateUserSchema Sample.libs) "id" (JNum 7) []
                [("name", JStr "Maria Lima")]) as (Hign & _ & Hid).
  split; [exact Hid|exact (Hign Hid)].
Defined.

(** X22: how each operation changes the length of the collection:
    [create] adds one record, [update] none, and [delete] removes one when
    the id has a record and none otherwise. *)
Theorem step_length (o : operation) (r : UserRepository) :
  length (users (step r o))
  = match o with
    | Create _ => S (length (users r))
    | Update _ _ => length (users r)
    | Delete i => match getById i r with
                  | Some _ => pred (length (users r))
                  | None => length (users r)
                  end
    end.
Proof.
  destruct o as [user|i data|i]; simpl.
  - rewrite length_app. simpl. lia.
  - unfold update. destruct (findIndex i (users r)) as [[k u]|]; [|done].
    simpl. apply length_insert.
  - unfold getById, delete.
    destruct (findIndex i (users r)) as [[k u]|] eqn:E; [|done].
    simpl. apply findIndex_Some in E as (Hu & _).
    rewrite length_delete by eauto. lia.
Qed.




